(** * AegisClaw, examples/skills/code-runner/runner.py

    A shallow embedding of the code-runner skill: the snippet locator
    ([find_snippet]), the sandboxed executor ([run_snippet]) and the
    script's entry point ([main]), together with the parts of the Python
    runtime they rely on (string slicing, [os.path.splitext],
    [os.path.join], [sorted], [print], [sys.exit], text files).

    Python [str] values are sequences of Unicode code points and are
    modelled as [list N]; a text file or a pipe holds the UTF-8 encoding
    of such a sequence. *)

From Stdlib Require Import ZArith NArith List String Ascii Lia Bool.
From Stdlib Require Import DecimalString DecimalZ DecimalPos.
From stdpp Require Import base list gmap sorting.

Import ListNotations.
Local Open Scope Z_scope.

(** ** Python strings *)

Module Py.

(** A Python [str]: its code points, in order. *)
Abbreviation str := (list N).

(** A string literal of the source. *)
Definition lit (s : String.string) : str :=
  List.map N_of_ascii (list_ascii_of_string s).

(** [str(n)] and the [{n}] of an f-string, for an [int]. *)
Definition str_of_int (n : Z) : str :=
  lit (NilZero.string_of_int (Z.to_int n)).

(** The slice [s[:n]]: a negative bound counts from the end. *)
Definition slice_to {A} (s : list A) (n : Z) : list A :=
  if 0 <=? n then firstn (Z.to_nat n) s
  else firstn (Z.to_nat (Z.of_nat (length s) + n)) s.

(** The slice [s[n:]] for a bound [0 <= n]. *)
Definition slice_from {A} (s : list A) (n : Z) : list A :=
  skipn (Z.to_nat n) s.

(** [s[i:i+1]]: the one-character string at [i], empty out of range. *)
Definition char_at (s : str) (i : Z) : str :=
  if i <? 0 then [] else firstn 1 (skipn (Z.to_nat i) s).

(** [s.rfind(c)] for a one-character [c]: the highest index holding
    [c], or [-1]. The scan walks the string from the left and keeps the
    last hit. *)
Fixpoint rfind_from (c : N) (s : str) (i : Z) (last : Z) : Z :=
  match s with
  | [] => last
  | x :: s' => rfind_from c s' (i + 1) (if N.eqb x c then i else last)
  end.

Definition rfind (s : str) (c : N) : Z := rfind_from c s 0 (-1).

(** [sep.join(parts)]. *)
Fixpoint join (sep : str) (parts : list str) : str :=
  match parts with
  | [] => []
  | [p] => p
  | p :: rest => p ++ sep ++ join sep rest
  end.

(** The newline character, ["\n"] in the source. *)
Definition nl : str := [10%N].

(** Truth value of a string: non-empty. *)
Definition truthy (s : str) : bool :=
  match s with [] => false | _ => true end.

(** Lexicographic comparison of strings by code point, the order
    [sorted] uses on [str]. *)
Fixpoint str_leb (a b : str) : bool :=
  match a, b with
  | [], _ => true
  | _ :: _, [] => false
  | x :: a', y :: b' =>
      if N.ltb x y then true
      else if N.eqb x y then str_leb a' b'
      else false
  end.

Definition str_le (a b : str) : Prop := str_leb a b = true.

#[global] Instance str_le_dec (a b : str) : Decision (str_le a b).
Proof. unfold str_le. apply _. Defined.

(** [sorted(names)]. Python's sort is a stable merge sort; on a total
    order any such sort returns the same list. *)
Definition sorted (names : list str) : list str :=
  merge_sort str_le names.

(** The UTF-8 encoding of one code point, as the text layer of a file
    object writes it. *)
Definition utf8_char (c : N) : list N :=
  if (c <? 0x80)%N then [c]
  else if (c <? 0x800)%N then
    [N.lor 0xC0 (N.shiftr c 6); N.lor 0x80 (N.land c 0x3F)]
  else if (c <? 0x10000)%N then
    [N.lor 0xE0 (N.shiftr c 12);
     N.lor 0x80 (N.land (N.shiftr c 6) 0x3F);
     N.lor 0x80 (N.land c 0x3F)]
  else
    [N.lor 0xF0 (N.shiftr c 18);
     N.lor 0x80 (N.land (N.shiftr c 12) 0x3F);
     N.lor 0x80 (N.land (N.shiftr c 6) 0x3F);
     N.lor 0x80 (N.land c 0x3F)].

Definition utf8 (s : str) : list N := List.concat (List.map utf8_char s).

(** The strict UTF-8 decoder, [bytes.decode("utf-8")]: [None] stands
    for [UnicodeDecodeError]. Overlong forms, surrogates, code points
    above U+10FFFF, stray continuation bytes and truncated sequences
    are all refused. *)
Definition in_range (lo hi b : N) : bool := (lo <=? b)%N && (b <=? hi)%N.

Definition push (c : N) (o : option str) : option str :=
  match o with Some s => Some (c :: s) | None => None end.

Fixpoint utf8_decode (bs : list N) : option str :=
  match bs with
  | [] => Some []
  | b0 :: rest =>
      if (b0 <? 0x80)%N then push b0 (utf8_decode rest)
      else if in_range 0xC2 0xDF b0 then
        match rest with
        | b1 :: rest1 =>
            if in_range 0x80 0xBF b1 then
              push (N.lor (N.shiftl (N.land b0 0x1F) 6) (N.land b1 0x3F))
                   (utf8_decode rest1)
            else None
        | _ => None
        end
      else if in_range 0xE0 0xEF b0 then
        match rest with
        | b1 :: b2 :: rest2 =>
            if in_range (if (b0 =? 0xE0)%N then 0xA0 else 0x80)
                        (if (b0 =? 0xED)%N then 0x9F else 0xBF) b1
               && in_range 0x80 0xBF b2 then
              push (N.lor (N.shiftl (N.land b0 0x0F) 12)
                      (N.lor (N.shiftl (N.land b1 0x3F) 6) (N.land b2 0x3F)))
                   (utf8_decode rest2)
            else None
        | _ => None
        end
      else if in_range 0xF0 0xF4 b0 then
        match rest with
        | b1 :: b2 :: b3 :: rest3 =>
            if in_range (if (b0 =? 0xF0)%N then 0x90 else 0x80)
                        (if (b0 =? 0xF4)%N then 0x8F else 0xBF) b1
               && in_range 0x80 0xBF b2 && in_range 0x80 0xBF b3 then
              push (N.lor (N.shiftl (N.land b0 0x07) 18)
                      (N.lor (N.shiftl (N.land b1 0x3F) 12)
                         (N.lor (N.shiftl (N.land b2 0x3F) 6)
                            (N.land b3 0x3F))))
                   (utf8_decode rest3)
            else None
        | _ => None
        end
      else None
  end.

(** Universal newlines, as [subprocess] applies them in text mode:
    [data.replace("\r\n", "\n").replace("\r", "\n")]. *)
Fixpoint translate_newlines (s : str) : str :=
  match s with
  | [] => []
  | c :: rest =>
      if (c =? 13)%N then
        match rest with
        | d :: rest' =>
            if (d =? 10)%N then 10%N :: translate_newlines rest'
            else 10%N :: translate_newlines rest
        | [] => [10%N]
        end
      else c :: translate_newlines rest
  end.

(** What [text=True] makes of the bytes a child wrote on a stream. *)
Definition decode_text (raw : list N) : option str :=
  match utf8_decode raw with
  | Some s => Some (translate_newlines s)
  | None => None
  end.

End Py.

(** ** os.path (posixpath) *)

Module OsPath.
Import Py.

Definition sep : N := 47.     (* "/" *)
Definition extsep : N := 46.  (* "." *)

(** The [while] loop of [genericpath._splitext] that skips leading
    dots: [steps] is [dotIndex - filenameIndex], the number of
    iterations left. It answers [true] when a character other than the
    dot is met before [dotIndex]. *)
Fixpoint skip_leading_dots (p : str) (filenameIndex : Z) (steps : nat) : bool :=
  match steps with
  | O => false
  | S k =>
      if decide (char_at p filenameIndex = [extsep]) then
        skip_leading_dots p (filenameIndex + 1) k
      else true
  end.

(** [os.path.splitext(p)]. *)
Definition splitext (p : str) : str * str :=
  let sepIndex := rfind p sep in
  let dotIndex := rfind p extsep in
  if (sepIndex <? dotIndex)
     && skip_leading_dots p (sepIndex + 1) (Z.to_nat (dotIndex - (sepIndex + 1)))
  then (slice_to p dotIndex, slice_from p dotIndex)
  else (p, slice_to p 0).

Definition startswith_sep (b : str) : bool :=
  match b with c :: _ => N.eqb c sep | [] => false end.

(** [os.path.join(a, b)] for two components. *)
Definition join (a b : str) : str :=
  if startswith_sep b then b
  else if negb (truthy a) || bool_decide (last a = Some sep) then a ++ b
  else a ++ [sep] ++ b.

End OsPath.

(** ** The process and its world *)

Module Runner.
Import Py.

(** What the script can see of the file system: the entries of the
    workspace directory, one level of sub-directory below it. A
    directory entry that is neither a regular file nor a directory
    (a socket, a dangling link) is [NOther]. Symbolic links are not
    represented: an entry stands for what it resolves to, and no two
    names share one file. *)
Inductive leaf :=
  | LFile (content : str)
  | LDir.

Inductive node :=
  | NFile (content : str)
  | NDir (children : gmap str leaf)
  | NOther.

(** One call of [subprocess.run]: the command, [cwd] and [timeout]. *)
Record spawn := Spawn {
  spawn_cmd : list str;
  spawn_cwd : str;
  spawn_timeout : Z;
}.

Record world := World {
  workspace : gmap str node;
  sys_stdout : str;
  sys_stderr : str;
  spawned : list spawn;
}.

(** The [CompletedProcess] of [subprocess.run(..., capture_output=True,
    text=True)]: the return code and both streams, decoded. *)
Record CompletedProcess := Completed {
  returncode : Z;
  stdout : str;
  stderr : str;
}.

(** What becomes of a child: it ends within the timeout with a return
    code, having written some bytes on each stream; it is still
    running when the timeout expires; or the interpreter cannot be
    started. *)
Inductive proc_outcome :=
  | Exited (code : Z) (raw_stdout raw_stderr : list N)
  | TimedOut
  | SpawnFailed.

(** The child process is opaque: its behaviour is a function of the
    call. *)
Definition child := spawn -> proc_outcome.

Inductive exn := KeyError | OSError | TimeoutExpired | UnicodeDecodeError.

#[global] Instance exn_eq_dec : EqDecision exn.
Proof. solve_decision. Defined.

(** How a computation ends: with a value, with [SystemExit] raised
    by [sys.exit], or with another exception. *)
Inductive result (A : Type) :=
  | Ret (a : A)
  | SysExit (code : Z)
  | Raise (e : exn).
Arguments Ret {A} a.
Arguments SysExit {A} code.
Arguments Raise {A} e.

Definition M (A : Type) := world -> result A * world.

Definition ret {A} (a : A) : M A := fun w => (Ret a, w).

Definition bind {A B} (c : M A) (k : A -> M B) : M B :=
  fun w =>
    match c w with
    | (Ret a, w') => k a w'
    | (SysExit code, w') => (SysExit code, w')
    | (Raise e, w') => (Raise e, w')
    end.

Definition raise {A} (e : exn) : M A := fun w => (Raise e, w).

(** [try: body except e: handler]. *)
Definition try_except {A} (body : M A) (e : exn) (handler : M A) : M A :=
  fun w =>
    match body w with
    | (Raise e', w') => if decide (e' = e) then handler w' else (Raise e', w')
    | r => r
    end.

(** [sys.exit(code)]. *)
Definition sys_exit {A} (code : Z) : M A := fun w => (SysExit code, w).

Notation "x <- c ;; k" := (bind c (fun x => k))
  (at level 100, c at next level, right associativity).
Notation "c ;; k" := (bind c (fun _ => k))
  (at level 100, right associativity).

(** The exit status the parent of the script observes: the low byte
    of the [sys.exit] argument, 1 after an uncaught exception, 0 when
    the script runs off its end. *)
Definition exit_status {A} (r : result A) : Z :=
  match r with
  | Ret _ => 0
  | SysExit code => code mod 256
  | Raise _ => 1
  end.

(** [print(s)] and [print(s, file=sys.stderr)]. *)
Definition print (s : str) : M unit := fun w =>
  (Ret tt, World (workspace w) (sys_stdout w ++ s ++ nl)
                 (sys_stderr w) (spawned w)).

Definition print_stderr (s : str) : M unit := fun w =>
  (Ret tt, World (workspace w) (sys_stdout w)
                 (sys_stderr w ++ s ++ nl) (spawned w)).

(** *** Module constants of runner.py *)

(** [TIMEOUT] and [MAX_OUTPUT_KB] are read from the environment when
    the module is loaded (defaults 30 and 256) and never change. *)
Record limits := Limits {
  TIMEOUT : Z;
  MAX_OUTPUT_KB : Z;
}.

Definition default_limits : limits := Limits 30 256.

Definition WORKSPACE : str := lit "/workspace".
Definition OUTPUT_DIR : str := lit "/workspace/output".

(** The dict [RUNNERS], in insertion order. *)
Definition RUNNERS : list (str * list str) :=
  [ (lit ".py", [lit "python3"]);
    (lit ".sh", [lit "bash"]) ].

(** [d[k]], [k in d] and [d.keys()] on a dict kept as an association
    list. *)
Fixpoint dict_get {V} (d : list (str * V)) (k : str) : option V :=
  match d with
  | [] => None
  | (k', v) :: d' => if decide (k = k') then Some v else dict_get d' k
  end.

Definition dict_in {V} (k : str) (d : list (str * V)) : bool :=
  match dict_get d k with Some _ => true | None => false end.

Definition dict_keys {V} (d : list (str * V)) : list str := List.map fst d.

(** *** The file system calls *)

Fixpoint strip_prefix (pre s : str) : option str :=
  match pre, s with
  | [], _ => Some s
  | x :: pre', y :: s' => if N.eqb x y then strip_prefix pre' s' else None
  | _ :: _, [] => None
  end.

Fixpoint split_on (c : N) (s : str) : list str :=
  match s with
  | [] => [[]]
  | x :: s' =>
      if N.eqb x c then [] :: split_on c s'
      else match split_on c s' with
           | h :: t => (x :: h) :: t
           | [] => [[x]]
           end
  end.

(** The components of an absolute path below the workspace. *)
Definition resolve (path : str) : option (list str) :=
  match strip_prefix (WORKSPACE ++ [OsPath.sep]) path with
  | Some rest => Some (split_on OsPath.sep rest)
  | None => None
  end.

Definition set_workspace (ws : gmap str node) (w : world) : world :=
  World ws (sys_stdout w) (sys_stderr w) (spawned w).

(** [os.listdir(path)]: the names, in no particular order. The
    workspace directory itself is taken to exist. *)
Definition listdir (path : str) : M (list str) := fun w =>
  if decide (path = WORKSPACE) then (Ret (map_to_list (workspace w)).*1, w)
  else match resolve path with
       | Some [d] =>
           match workspace w !! d with
           | Some (NDir ch) => (Ret (map_to_list ch).*1, w)
           | _ => (Raise OSError, w)
           end
       | _ => (Raise OSError, w)
       end.

(** [os.path.isfile(path)]. *)
Definition isfile (ws : gmap str node) (path : str) : bool :=
  match resolve path with
  | Some [f] =>
      match ws !! f with Some (NFile _) => true | _ => false end
  | Some [d; f] =>
      match ws !! d with
      | Some (NDir ch) =>
          match ch !! f with Some (LFile _) => true | _ => false end
      | _ => false
      end
  | _ => false
  end.

(** [os.makedirs(path, exist_ok=True)] for a directory directly below
    the workspace: [FileExistsError] when the name is taken by
    something that is not a directory. *)
Definition makedirs (path : str) : M unit := fun w =>
  match resolve path with
  | Some [d] =>
      match workspace w !! d with
      | None => (Ret tt, set_workspace (<[d := NDir ∅]> (workspace w)) w)
      | Some (NDir _) => (Ret tt, w)
      | Some _ => (Raise OSError, w)
      end
  | _ => (Raise OSError, w)
  end.

(** [open(path, "w")]: the file is created or emptied; opening a
    directory, or a file in a directory that does not exist, raises.
    The file object is represented by its path. *)
Definition open_w (path : str) : M str := fun w =>
  match resolve path with
  | Some [f] =>
      match workspace w !! f with
      | None | Some (NFile _) =>
          (Ret path, set_workspace (<[f := NFile []]> (workspace w)) w)
      | Some _ => (Raise OSError, w)
      end
  | Some [d; f] =>
      match workspace w !! d with
      | Some (NDir ch) =>
          match ch !! f with
          | Some LDir => (Raise OSError, w)
          | _ =>
              (Ret path,
               set_workspace (<[d := NDir (<[f := LFile []]> ch)]> (workspace w)) w)
          end
      | _ => (Raise OSError, w)
      end
  | _ => (Raise OSError, w)
  end.

(** [f.write(data)]: the data goes after what the file already
    holds. *)
Definition fwrite (f : str) (data : str) : M unit := fun w =>
  match resolve f with
  | Some [n] =>
      match workspace w !! n with
      | Some (NFile c) =>
          (Ret tt, set_workspace (<[n := NFile (c ++ data)]> (workspace w)) w)
      | _ => (Raise OSError, w)
      end
  | Some [d; n] =>
      match workspace w !! d with
      | Some (NDir ch) =>
          match ch !! n with
          | Some (LFile c) =>
              (Ret tt,
               set_workspace
                 (<[d := NDir (<[n := LFile (c ++ data)]> ch)]> (workspace w)) w)
          | _ => (Raise OSError, w)
          end
      | _ => (Raise OSError, w)
      end
  | _ => (Raise OSError, w)
  end.

(** The text a file below the workspace holds, if it is a regular
    file. *)
Definition read_file (ws : gmap str node) (path : str) : option str :=
  match resolve path with
  | Some [f] =>
      match ws !! f with Some (NFile c) => Some c | _ => None end
  | Some [d; f] =>
      match ws !! d with
      | Some (NDir ch) =>
          match ch !! f with Some (LFile c) => Some c | _ => None end
      | _ => None
      end
  | _ => None
  end.

(** [subprocess.run(cmd, capture_output=True, text=True,
    timeout=..., cwd=...)]. In text mode the bytes of each stream are
    decoded, stdout first, and a stream that does not decode raises
    [UnicodeDecodeError]. *)
Definition subprocess_run (c : child) (cmd : list str) (timeout : Z) (cwd : str)
  : M CompletedProcess := fun w =>
  let call := Spawn cmd cwd timeout in
  let w' := World (workspace w) (sys_stdout w) (sys_stderr w)
                  (spawned w ++ [call]) in
  match c call with
  | Exited code raw_stdout raw_stderr =>
      match decode_text raw_stdout with
      | None => (Raise UnicodeDecodeError, w')
      | Some out =>
          match decode_text raw_stderr with
          | None => (Raise UnicodeDecodeError, w')
          | Some err => (Ret (Completed code out err), w')
          end
      end
  | TimedOut => (Raise TimeoutExpired, w')
  | SpawnFailed => (Raise OSError, w')
  end.

(** *** runner.py *)

(** The [for] loop of [find_snippet] over the sorted listing. *)
Fixpoint find_loop (ws : gmap str node) (entries : list str)
  : option (str * str) :=
  match entries with
  | [] => None
  | entry :: rest =>
      let full := OsPath.join WORKSPACE entry in
      if negb (isfile ws full) then find_loop ws rest
      else
        let '(_, ext) := OsPath.splitext entry in
        if dict_in ext RUNNERS then Some (full, ext)
        else find_loop ws rest
  end.

(** [find_snippet()]: [None] stands for the pair [(None, None)]. *)
Definition find_snippet : M (option (str * str)) :=
  entries <- listdir WORKSPACE ;;
  fun w => (Ret (find_loop (workspace w) (sorted entries)), w).

Definition when (b : bool) (c : M unit) : M unit :=
  if b then c else ret tt.

(** [run_snippet(path, ext)]. *)
Definition run_snippet (L : limits) (c : child) (path ext : str) : M Z :=
  base <- match dict_get RUNNERS ext with
          | Some b => ret b
          | None => raise KeyError
          end ;;
  let cmd := base ++ [path] in
  print (lit "Running: " ++ join (lit " ") cmd ++ lit " (timeout="
         ++ str_of_int (TIMEOUT L) ++ lit "s)") ;;
  result <- try_except
              (subprocess_run c cmd (TIMEOUT L) WORKSPACE)
              TimeoutExpired
              (print_stderr (lit "Error: execution timed out after "
                             ++ str_of_int (TIMEOUT L) ++ lit "s") ;;
               sys_exit 124) ;;
  let stdout := slice_to (stdout result) (MAX_OUTPUT_KB L * 1024) in
  let stderr := slice_to (stderr result) (MAX_OUTPUT_KB L * 1024) in
  when (truthy stdout)
    (print (lit "--- stdout ---") ;; print stdout) ;;
  when (truthy stderr)
    (print_stderr (lit "--- stderr ---") ;; print_stderr stderr) ;;
  let out_file := OsPath.join OUTPUT_DIR (lit "result.txt") in
  makedirs OUTPUT_DIR ;;
  f <- open_w out_file ;;
  fwrite f (lit "exit_code: " ++ str_of_int (returncode result) ++ nl) ;;
  fwrite f (lit "--- stdout ---" ++ nl ++ stdout ++ nl) ;;
  when (truthy stderr)
    (fwrite f (lit "--- stderr ---" ++ nl ++ stderr ++ nl)) ;;
  print (nl ++ lit "Exit code: " ++ str_of_int (returncode result)) ;;
  print (lit "Output saved to: " ++ out_file) ;;
  ret (returncode result).

(** The [__main__] block. *)
Definition main (L : limits) (c : child) : M unit :=
  found <- find_snippet ;;
  match found with
  | None =>
      print_stderr (lit "No runnable code found in /workspace") ;;
      print (lit "Supported extensions:" ++ lit " "
             ++ join (lit ", ") (dict_keys RUNNERS)) ;;
      sys_exit 1
  | Some (path, ext) =>
      code <- run_snippet L c path ext ;;
      sys_exit code
  end.

End Runner.

(** ** Specification vocabulary *)

Module Spec.
Import Py Runner.

(** A name a directory can hold: no path separator in it. *)
Definition no_sep (name : str) : Prop := Forall (fun c => c <> OsPath.sep) name.

Definition wf_workspace (ws : gmap str node) : Prop :=
  forall name n, ws !! name = Some n -> no_sep name.

(** The extension the locator gives an entry. *)
Definition ext_of (name : str) : str := (OsPath.splitext name).2.

Definition is_regular (n : option node) : bool :=
  match n with Some (NFile _) => true | _ => false end.

(** A runnable entry: a regular file whose extension is a key of
    [RUNNERS]. *)
Definition candidate (ws : gmap str node) (name : str) : Prop :=
  is_regular (ws !! name) = true /\ dict_in (ext_of name) RUNNERS = true.

(** The same test as a boolean, as one round of the loop makes it. *)
Definition runnable (ws : gmap str node) (name : str) : bool :=
  is_regular (ws !! name) && dict_in (ext_of name) RUNNERS.

(** What [find_snippet] returns on a workspace, as a function. *)
Definition locate (ws : gmap str node) : option (str * str) :=
  find_loop ws (sorted (map_to_list ws).*1).

(** The runnable entry whose name sorts first. *)
Definition first_candidate (ws : gmap str node) (name : str) : Prop :=
  candidate ws name /\ forall name', candidate ws name' -> str_le name name'.

(** The artifact, and the conditions under which it can be written:
    the output name is free or a directory, and the result name in it
    is not a directory. *)
Definition RESULT_PATH : str := lit "/workspace/output/result.txt".

Definition can_persist (ws : gmap str node) : Prop :=
  match ws !! lit "output" with
  | None => True
  | Some (NDir ch) => ch !! lit "result.txt" <> Some LDir
  | Some _ => False
  end.

(** The text of the artifact for a return code and two truncated
    streams. *)
Definition artifact_text (code : Z) (out err : str) : str :=
  lit "exit_code: " ++ str_of_int code ++ nl
  ++ lit "--- stdout ---" ++ nl ++ out ++ nl
  ++ (if truthy err then lit "--- stderr ---" ++ nl ++ err ++ nl else []).

(** [subprocess.run] returns the [CompletedProcess] [r]: the child
    ended in time with that return code and the bytes it wrote on
    each stream decode to the two strings of [r]. *)
Definition completes (c : child) (call : spawn) (r : CompletedProcess) : Prop :=
  exists raw_stdout raw_stderr,
    c call = Exited (returncode r) raw_stdout raw_stderr /\
    decode_text raw_stdout = Some (stdout r) /\
    decode_text raw_stderr = Some (stderr r).

(** Bytes that text mode leaves alone: ASCII, and no carriage
    return. *)
Definition plain (raw : list N) : Prop :=
  Forall (fun b => (b < 128)%N /\ b <> 13%N) raw.

(** The child ended in time but one of its streams does not decode. *)
Definition undecodable (c : child) (call : spawn) : Prop :=
  exists code raw_stdout raw_stderr,
    c call = Exited code raw_stdout raw_stderr /\
    (decode_text raw_stdout = None \/ decode_text raw_stderr = None).

(** The call [run_snippet] makes for a path and an interpreter. *)
Definition call_of (L : limits) (base : list str) (path : str) : spawn :=
  Spawn (base ++ [path]) WORKSPACE (TIMEOUT L).

(** The claimed extension rule, in the words of the specification:
    the part of the name from its last dot on, empty without a dot. *)
Fixpoint suffix_from_last (c : N) (s : str) : str :=
  match s with
  | [] => []
  | x :: s' =>
      match suffix_from_last c s' with
      | [] => if N.eqb x c then s else []
      | r => r
      end
  end.

Definition not_dot (x : N) : bool := negb (N.eqb x OsPath.extsep).

(** The line [run_snippet] prints before it starts the child. *)
Definition running_line (L : limits) (cmd : list str) : str :=
  lit "Running: " ++ join (lit " ") cmd ++ lit " (timeout="
  ++ str_of_int (TIMEOUT L) ++ lit "s)".

(** The message of the timeout handler. *)
Definition timeout_message (L : limits) : str :=
  lit "Error: execution timed out after " ++ str_of_int (TIMEOUT L) ++ lit "s".

(** What is in the output directory, when there is one. *)
Definition output_children (ws : gmap str node) : gmap str leaf :=
  match ws !! lit "output" with
  | Some (NDir ch) => ch
  | _ => ∅
  end.

(** The workspace once the artifact holds [text]. *)
Definition with_artifact (ws : gmap str node) (text : str) : gmap str node :=
  <[lit "output" := NDir (<[lit "result.txt" := LFile text]> (output_children ws))]> ws.

(** What is echoed on the console for a truncated stream. *)
Definition echo (label out : str) : str :=
  if truthy out then label ++ nl ++ out ++ nl else [].

(** The console after a normal run. *)
Definition console_out (L : limits) (cmd : list str) (code : Z) (out : str) : str :=
  running_line L cmd ++ nl
  ++ echo (lit "--- stdout ---") out
  ++ nl ++ lit "Exit code: " ++ str_of_int code ++ nl
  ++ lit "Output saved to: " ++ RESULT_PATH ++ nl.

(** A computation that starts no process. *)
Definition keeps_spawned {A} (m : M A) : Prop :=
  forall w, spawned (m w).2 = spawned w.

(** A name without its leading dots. *)
Fixpoint strip_leading (c : N) (s : str) : str :=
  match s with
  | [] => []
  | x :: s' => if N.eqb x c then strip_leading c s' else s
  end.

End Spec.

(** ** Sample worlds *)

Module Demo.
Import Py Runner.

(** A workspace with two runnable files, a dot-file, a text file and
    a directory. *)
Definition ws : gmap str node :=
  <[lit "b.py" := NFile (lit "print(1)")]>
    (<[lit "a.sh" := NFile (lit "echo hi")]>
       (<[lit ".py" := NFile []]>
          (<[lit "z.txt" := NFile []]>
             (<[lit "notes" := NDir ∅]> ∅)))).

Definition w0 : world := World ws [] [] [].

(** A workspace that holds the single file [a.py]. *)
Definition ws_single : gmap str node := {[ lit "a.py" := NFile [] ]}.

Definition w_single : world := World ws_single [] [] [].

(** A child that prints on both streams and exits with 3, one that
    outlives the timeout, and one that prints 1025 times the letter
    e-acute, U+00E9, which is two bytes in UTF-8. *)
Definition child_exit3 : child :=
  fun _ => Exited 3 (lit "hi") (lit "warn").

Definition child_slow : child := fun _ => TimedOut.

Definition child_accents : child :=
  fun _ => Exited 0 (utf8 (repeat 233%N 1025)) [].

(** A workspace in which a directory carries a runnable name. *)
Definition ws_dir_py : gmap str node :=
  <[lit "a.py" := NDir ∅]> (<[lit "b.sh" := NFile []]> ∅).

Definition w_dir_py : world := World ws_dir_py [] [] [].

(** A workspace whose output name is taken by a regular file, and one
    whose result name is taken by a directory. *)
Definition ws_blocked : gmap str node :=
  <[lit "a.py" := NFile []]> (<[lit "output" := NFile (lit "x")]> ∅).

Definition w_blocked : world := World ws_blocked [] [] [].

Definition ws_result_dir : gmap str node :=
  <[lit "a.py" := NFile []]>
    (<[lit "output" := NDir {[ lit "result.txt" := LDir ]}]> ∅).

(** A workspace with an output directory that already holds a file. *)
Definition ws_kept : gmap str node :=
  <[lit "a.py" := NFile []]>
    (<[lit "output" := NDir {[ lit "old.log" := LFile (lit "kept") ]}]> ∅).

Definition w_kept : world := World ws_kept [] [] [].

(** A child whose interpreter is missing, one killed by signal 9, one
    that prints nothing, and two whose results differ but render
    alike. *)
Definition child_missing : child := fun _ => SpawnFailed.

Definition child_killed : child := fun _ => Exited (-9) [] [].

Definition child_quiet : child := fun _ => Exited 0 [] [].

Definition child_fake_stderr : child :=
  fun _ => Exited 0 (lit "a" ++ nl ++ lit "--- stderr ---" ++ nl ++ lit "b") [].

Definition child_real_stderr : child :=
  fun _ => Exited 0 (lit "a") (lit "b").

(** A workspace with nothing runnable in it. *)
Definition ws_idle : gmap str node :=
  <[lit "README" := NFile []]>
    (<[lit ".sh" := NFile []]> (<[lit "src.py" := NDir ∅]> ∅)).

Definition w_idle : world := World ws_idle (lit "earlier") [] [].

(** A child that exits with 0 after writing the single byte 0xFF,
    which is not UTF-8, one that writes 1025 times the letter [a], and
    one that ends its line the Windows way. *)
Definition child_binary : child := fun _ => Exited 0 [255%N] [].

Definition child_long : child := fun _ => Exited 0 (repeat 97%N 1025) [].

Definition child_crlf : child :=
  fun _ => Exited 0 (lit "a" ++ [13%N; 10%N] ++ lit "b") [].

End Demo.

(** ** Sanity checks of the embedding *)

Import Py.

Example splitext_a_py : OsPath.splitext (lit "a.py") = (lit "a", lit ".py").
Proof. reflexivity. Qed.

Example splitext_dot_py : OsPath.splitext (lit ".py") = (lit ".py", []).
Proof. reflexivity. Qed.

Example splitext_tar_gz :
  OsPath.splitext (lit "..a.tar.gz") = (lit "..a.tar", lit ".gz").
Proof. reflexivity. Qed.

Example sorted_ex :
  sorted [lit "b.py"; lit "a.sh"; lit "B"] = [lit "B"; lit "a.sh"; lit "b.py"].
Proof. vm_compute. reflexivity. Qed.

Example str_of_int_ex : str_of_int (-12) = lit "-12" /\ str_of_int 0 = lit "0".
Proof. split; reflexivity. Qed.

Example join_workspace : OsPath.join Runner.WORKSPACE (lit "a.py") = lit "/workspace/a.py".
Proof. reflexivity. Qed.

Example out_file_path :
  OsPath.join Runner.OUTPUT_DIR (lit "result.txt") = Spec.RESULT_PATH.
Proof. reflexivity. Qed.

Example slice_negative : slice_to [1; 2; 3; 4; 5]%N (-2) = [1; 2; 3]%N.
Proof. reflexivity. Qed.

Example utf8_e_acute : utf8 [233%N] = [195; 169]%N.
Proof. reflexivity. Qed.

Example splitext_trailing_dot :
  OsPath.splitext (lit "notes.") = (lit "notes", lit ".").
Proof. reflexivity. Qed.

Example find_snippet_demo :
  Runner.find_snippet Demo.w0
  = (Runner.Ret (Some (lit "/workspace/a.sh", lit ".sh")), Demo.w0).
Proof. vm_compute. reflexivity. Qed.

Example main_demo_exit3 :
  let '(r, w) := Runner.main Runner.default_limits Demo.child_exit3 Demo.w0 in
  r = Runner.SysExit 3 /\
  Runner.sys_stderr w = lit "--- stderr ---" ++ nl ++ lit "warn" ++ nl /\
  Runner.read_file (Runner.workspace w) Spec.RESULT_PATH
  = Some (lit "exit_code: 3" ++ nl ++ lit "--- stdout ---" ++ nl
          ++ lit "hi" ++ nl ++ lit "--- stderr ---" ++ nl ++ lit "warn" ++ nl).
Proof. vm_compute. repeat split; reflexivity. Qed.

Example main_demo_timeout :
  let '(r, w) := Runner.main Runner.default_limits Demo.child_slow Demo.w0 in
  r = Runner.SysExit 124 /\
  Runner.sys_stderr w = lit "Error: execution timed out after 30s" ++ nl /\
  Runner.workspace w = Demo.ws.
Proof. vm_compute. repeat split; reflexivity. Qed.

Example utf8_decode_e_acute : utf8_decode [195; 169]%N = Some [233%N].
Proof. reflexivity. Qed.

Example utf8_decode_refuses :
  utf8_decode [255%N] = None          (* not a lead byte *)
  /\ utf8_decode [192; 128]%N = None  (* overlong *)
  /\ utf8_decode [237; 160; 128]%N = None  (* surrogate *)
  /\ utf8_decode [195%N] = None.      (* truncated *)
Proof. repeat split; reflexivity. Qed.

Example translate_newlines_ex :
  translate_newlines (lit "a" ++ [13; 10]%N ++ lit "b" ++ [13%N] ++ lit "c")
  = lit "a" ++ nl ++ lit "b" ++ nl ++ lit "c".
Proof. reflexivity. Qed.

Example main_demo_crlf :
  Runner.read_file
    (Runner.workspace
       (Runner.main Runner.default_limits Demo.child_crlf Demo.w_single).2)
    Spec.RESULT_PATH
  = Some (lit "exit_code: 0" ++ nl ++ lit "--- stdout ---" ++ nl
          ++ lit "a" ++ nl ++ lit "b" ++ nl).
Proof. vm_compute. reflexivity. Qed.

(** ** String order *)

Section StrOrder.

Lemma str_leb_refl (a : str) : str_leb a a = true.
Proof.
  induction a as [|x a IH]; simpl; [reflexivity|].
  rewrite N.ltb_irrefl, N.eqb_refl. exact IH.
Qed.

Lemma str_leb_total (a b : str) : str_leb a b = true \/ str_leb b a = true.
Proof.
  revert b. induction a as [|x a IH]; intros [|y b]; simpl; auto.
  destruct (N.ltb_spec x y), (N.ltb_spec y x), (N.eqb_spec x y), (N.eqb_spec y x);
    auto; try lia.
Qed.

Lemma str_leb_trans (a b c : str) :
  str_leb a b = true -> str_leb b c = true -> str_leb a c = true.
Proof.
  revert b c. induction a as [|x a IH]; intros [|y b] [|z c]; simpl; auto;
    try discriminate.
  destruct (N.ltb_spec x y), (N.ltb_spec y z), (N.ltb_spec x z),
    (N.eqb_spec x y), (N.eqb_spec y z), (N.eqb_spec x z);
    intros; auto; try discriminate; try lia.
  eapply IH; eauto.
Qed.

Lemma str_leb_antisym (a b : str) :
  str_leb a b = true -> str_leb b a = true -> a = b.
Proof.
  revert b. induction a as [|x a IH]; intros [|y b]; simpl; auto;
    try discriminate.
  destruct (N.ltb_spec x y), (N.ltb_spec y x), (N.eqb_spec x y), (N.eqb_spec y x);
    intros; try discriminate; try lia.
  subst. f_equal. auto.
Qed.

#[global] Instance str_le_total : Total str_le.
Proof. intros a b. apply str_leb_total. Qed.

#[global] Instance str_le_trans : Transitive str_le.
Proof. intros a b c. apply str_leb_trans. Qed.

Lemma sorted_perm (l : list str) : sorted l ≡ₚ l.
Proof. apply merge_sort_Permutation. Qed.

Lemma sorted_strongly (l : list str) : StronglySorted str_le (sorted l).
Proof. apply StronglySorted_merge_sort; apply _. Qed.

End StrOrder.

(** ** Paths below the workspace *)

Section Paths.
Import Runner Spec.

Lemma strip_prefix_same (pre s : str) : strip_prefix pre (pre ++ s) = Some s.
Proof.
  induction pre as [|x pre IH]; simpl; [reflexivity|].
  rewrite N.eqb_refl. exact IH.
Qed.

Lemma split_on_no_sep (name : str) :
  no_sep name -> split_on OsPath.sep name = [name].
Proof.
  induction 1 as [|x name Hx _ IH]; simpl; [reflexivity|].
  destruct (N.eqb_spec x OsPath.sep) as [->|_]; [contradiction|].
  rewrite IH. reflexivity.
Qed.

Lemma startswith_no_sep (name : str) :
  no_sep name -> OsPath.startswith_sep name = false.
Proof.
  destruct 1 as [|x name Hx _]; simpl; [reflexivity|].
  apply N.eqb_neq. exact Hx.
Qed.

Lemma join_no_sep (dir name : str) :
  no_sep name -> truthy dir = true -> last dir <> Some OsPath.sep ->
  OsPath.join dir name = dir ++ [OsPath.sep] ++ name.
Proof.
  intros Hn Hd Hl. unfold OsPath.join.
  rewrite (startswith_no_sep _ Hn), Hd. simpl.
  rewrite bool_decide_eq_false_2 by exact Hl. reflexivity.
Qed.

Lemma join_workspace_no_sep (name : str) :
  no_sep name -> OsPath.join WORKSPACE name = WORKSPACE ++ [OsPath.sep] ++ name.
Proof.
  intros Hn. apply join_no_sep; [exact Hn|reflexivity|discriminate].
Qed.

Lemma resolve_join (name : str) :
  no_sep name -> resolve (OsPath.join WORKSPACE name) = Some [name].
Proof.
  intros Hn. rewrite (join_workspace_no_sep _ Hn). unfold resolve.
  rewrite app_assoc, strip_prefix_same, (split_on_no_sep _ Hn). reflexivity.
Qed.

Lemma isfile_join (ws : gmap str node) (name : str) :
  no_sep name -> isfile ws (OsPath.join WORKSPACE name) = is_regular (ws !! name).
Proof.
  intros Hn. unfold isfile. rewrite (resolve_join _ Hn). reflexivity.
Qed.

Lemma join_workspace_inj (a b : str) :
  no_sep a -> no_sep b ->
  OsPath.join WORKSPACE a = OsPath.join WORKSPACE b -> a = b.
Proof.
  intros Ha Hb. rewrite !join_workspace_no_sep by assumption.
  intros H. apply app_inv_head in H. apply app_inv_head in H. exact H.
Qed.

Lemma no_sep_check (name : str) :
  forallb (fun c => negb (N.eqb c OsPath.sep)) name = true -> no_sep name.
Proof.
  intros H. apply Forall_forall. intros c Hin.
  rewrite forallb_forall in H. apply list_elem_of_In in Hin.
  specialize (H c Hin). apply negb_true_iff, N.eqb_neq in H. exact H.
Qed.

Lemma wf_workspace_empty : wf_workspace ∅.
Proof. intros name n H. rewrite lookup_empty in H. discriminate. Qed.

Lemma wf_workspace_insert ws name n :
  no_sep name -> wf_workspace ws -> wf_workspace (<[name := n]> ws).
Proof.
  intros Hn Hwf name' n' H. apply lookup_insert_Some in H as [[<- _]|[_ H]].
  - exact Hn.
  - eapply Hwf. exact H.
Qed.

End Paths.

(** Closes [no_sep] and [wf_workspace] goals on literal names. *)
Ltac solve_no_sep := apply no_sep_check; vm_compute; reflexivity.

(** Closes [completes] goals on a literal child. *)
Ltac solve_completes :=
  do 2 eexists; split; [reflexivity | split; vm_compute; reflexivity].

Ltac solve_wf :=
  repeat first
    [ apply wf_workspace_empty
    | apply wf_workspace_insert; [solve_no_sep|] ].

(** ** The locator *)

Section Locator.
Import Runner Spec.

Lemma runnable_candidate ws name :
  runnable ws name = true <-> candidate ws name.
Proof. unfold runnable, candidate. rewrite andb_true_iff. tauto. Qed.

Lemma find_loop_cons ws entry rest :
  no_sep entry ->
  find_loop ws (entry :: rest) =
    if runnable ws entry
    then Some (OsPath.join WORKSPACE entry, ext_of entry)
    else find_loop ws rest.
Proof.
  intros Hn. simpl. rewrite (isfile_join _ _ Hn). unfold runnable, ext_of.
  destruct (is_regular (ws !! entry)); simpl; [|reflexivity].
  destruct (OsPath.splitext entry) as [root ext]; simpl.
  destruct (dict_in ext RUNNERS); reflexivity.
Qed.

Lemma find_loop_none ws l :
  Forall no_sep l ->
  find_loop ws l = None <-> (forall name, name ∈ l -> ~ candidate ws name).
Proof.
  induction 1 as [|entry rest Hn _ IH].
  - simpl. split; [|reflexivity]. intros _ name Hin. inversion Hin.
  - rewrite (find_loop_cons _ _ _ Hn).
    destruct (runnable ws entry) eqn:Hr.
    + split; [discriminate|]. intros Hall. exfalso.
      apply (Hall entry); [left|]. apply runnable_candidate. exact Hr.
    + rewrite IH. split.
      * intros Hall name Hin. apply elem_of_cons in Hin as [->|Hin]; [|auto].
        rewrite <- runnable_candidate, Hr. discriminate.
      * intros Hall name Hin. apply Hall. right. exact Hin.
Qed.

Lemma find_loop_some ws l full ext :
  Forall no_sep l -> StronglySorted str_le l ->
  find_loop ws l = Some (full, ext) ->
  exists name,
    name ∈ l /\ candidate ws name /\
    full = OsPath.join WORKSPACE name /\ ext = ext_of name /\
    forall name', name' ∈ l -> candidate ws name' -> str_le name name'.
Proof.
  induction 1 as [|entry rest Hn _ IH]; intros Hs; [discriminate|].
  rewrite (find_loop_cons _ _ _ Hn).
  apply StronglySorted_inv in Hs as [Hs Hle].
  destruct (runnable ws entry) eqn:Hr.
  - intros [= <- <-]. exists entry. repeat split.
    + left.
    + apply runnable_candidate in Hr. apply Hr.
    + apply runnable_candidate in Hr. apply Hr.
    + intros name' Hin _. apply elem_of_cons in Hin as [->|Hin].
      * apply str_leb_refl.
      * rewrite Forall_forall in Hle. apply Hle. exact Hin.
  - intros Hf. destruct (IH Hs Hf) as (name & Hin & Hc & -> & -> & Hmin).
    exists name. repeat split; try apply Hc.
    + right. exact Hin.
    + intros name' Hin' Hc'. apply elem_of_cons in Hin' as [->|Hin']; [|auto].
      apply runnable_candidate in Hc'. congruence.
Qed.

Lemma find_snippet_locate w :
  find_snippet w = (Ret (locate (workspace w)), w).
Proof. reflexivity. Qed.

Lemma listing_elem (ws : gmap str node) name :
  name ∈ (map_to_list ws).*1 <-> is_Some (ws !! name).
Proof.
  rewrite list_elem_of_fmap. split.
  - intros ([k n] & -> & Hin). apply elem_of_map_to_list in Hin. eauto.
  - intros [n Hn]. exists (name, n). split; [reflexivity|].
    apply elem_of_map_to_list. exact Hn.
Qed.

Lemma sorted_listing_elem (ws : gmap str node) name :
  name ∈ sorted (map_to_list ws).*1 <-> is_Some (ws !! name).
Proof. rewrite (sorted_perm _). apply listing_elem. Qed.

Lemma sorted_listing_no_sep (ws : gmap str node) :
  wf_workspace ws -> Forall no_sep (sorted (map_to_list ws).*1).
Proof.
  intros Hwf. apply Forall_forall. intros name Hin.
  apply sorted_listing_elem in Hin as [n Hn]. eapply Hwf. exact Hn.
Qed.

Lemma candidate_listed ws name :
  candidate ws name -> is_Some (ws !! name).
Proof.
  intros [Hr _]. destruct (ws !! name); [eauto|discriminate].
Qed.

Lemma locate_none ws :
  wf_workspace ws ->
  locate ws = None <-> (forall name, ~ candidate ws name).
Proof.
  intros Hwf. unfold locate.
  rewrite (find_loop_none _ _ (sorted_listing_no_sep _ Hwf)). split.
  - intros Hall name Hc. apply (Hall name); [|exact Hc].
    apply sorted_listing_elem, candidate_listed with (1 := Hc).
  - intros Hall name _. apply Hall.
Qed.

Lemma locate_some ws full ext :
  wf_workspace ws ->
  locate ws = Some (full, ext) ->
  exists name,
    first_candidate ws name /\
    full = OsPath.join WORKSPACE name /\ ext = ext_of name.
Proof.
  intros Hwf Hl.
  destruct (find_loop_some _ _ _ _ (sorted_listing_no_sep _ Hwf)
              (sorted_strongly _) Hl) as (name & _ & Hc & -> & -> & Hmin).
  exists name. repeat split; try apply Hc.
  intros name' Hc'. apply Hmin; [|exact Hc'].
  apply sorted_listing_elem, candidate_listed with (1 := Hc').
Qed.

Lemma first_candidate_unique ws a b :
  first_candidate ws a -> first_candidate ws b -> a = b.
Proof.
  intros [Ha Hamin] [Hb Hbmin].
  apply str_leb_antisym; [apply Hamin|apply Hbmin]; assumption.
Qed.

Lemma locate_first ws name :
  wf_workspace ws -> first_candidate ws name ->
  locate ws = Some (OsPath.join WORKSPACE name, ext_of name).
Proof.
  intros Hwf Hfc. destruct (locate ws) as [[full ext]|] eqn:Hl.
  - destruct (locate_some _ _ _ Hwf Hl) as (name' & Hfc' & -> & ->).
    rewrite (first_candidate_unique _ _ _ Hfc Hfc'). reflexivity.
  - exfalso. apply (proj1 (locate_none _ Hwf) Hl name). apply Hfc.
Qed.

End Locator.

(** ** Claims about the locator *)

Section LocatorClaims.
Import Runner Spec.

(** C4. On every workspace [find_snippet] leaves the world untouched
    and returns the regular file with a registered extension whose
    name is first in ascending lexicographic order, with its
    extension; it returns nothing exactly when no entry is such a
    file. In particular a workspace with a single such file yields
    that file. *)
Theorem find_snippet_first_candidate (w : world) :
  wf_workspace (workspace w) ->
  exists r,
    find_snippet w = (Ret r, w) /\
    (r = None <-> forall name, ~ candidate (workspace w) name) /\
    (forall name,
        first_candidate (workspace w) name <->
        r = Some (OsPath.join WORKSPACE name, ext_of name) /\
        is_Some (workspace w !! name)) /\
    (forall name,
        candidate (workspace w) name ->
        (forall name', candidate (workspace w) name' -> name' = name) ->
        r = Some (OsPath.join WORKSPACE name, ext_of name)).
Proof.
  intros Hwf. exists (locate (workspace w)).
  split; [apply find_snippet_locate|].
  split; [apply locate_none; exact Hwf|]. split.
  - intros name. split.
    + intros Hfc. split; [apply locate_first; assumption|].
      apply candidate_listed, Hfc.
    + intros [Hl [n Hn]].
      destruct (locate_some _ _ _ Hwf Hl) as (name' & Hfc & Hj & _).
      apply join_workspace_inj in Hj.
      * subst name'. exact Hfc.
      * eapply Hwf. exact Hn.
      * destruct (candidate_listed _ _ (proj1 Hfc)) as [n' Hn'].
        eapply Hwf. exact Hn'.
  - intros name Hc Honly. apply locate_first; [exact Hwf|].
    split; [exact Hc|]. intros name' Hc'.
    rewrite (Honly _ Hc'). apply str_leb_refl.
Qed.

Lemma find_snippet_first_candidate_witness :
  wf_workspace (workspace Demo.w0) /\
  exists r,
    find_snippet Demo.w0 = (Ret r, Demo.w0) /\
    (r = None <-> forall name, ~ candidate (workspace Demo.w0) name) /\
    (forall name,
        first_candidate (workspace Demo.w0) name <->
        r = Some (OsPath.join WORKSPACE name, ext_of name) /\
        is_Some (workspace Demo.w0 !! name)) /\
    (forall name,
        candidate (workspace Demo.w0) name ->
        (forall name', candidate (workspace Demo.w0) name' -> name' = name) ->
        r = Some (OsPath.join WORKSPACE name, ext_of name)).
Proof.
  assert (Hwf : wf_workspace (workspace Demo.w0)).
  { unfold Demo.w0, Demo.ws, workspace. solve_wf. }
  split; [exact Hwf|].
  apply (find_snippet_first_candidate Demo.w0). exact Hwf.
Defined.

End LocatorClaims.

(** ** os.path.splitext on a directory entry *)

Section Splitext.
Import Runner Spec.

Lemma rfind_from_absent c s i last :
  Forall (fun x => x <> c) s -> rfind_from c s i last = last.
Proof.
  intros H. revert i. induction H as [|x s Hx _ IH]; intros i; simpl.
  - reflexivity.
  - apply N.eqb_neq in Hx. rewrite Hx. apply IH.
Qed.

Lemma rfind_from_last c pre post i last :
  Forall (fun x => x <> c) post ->
  rfind_from c (pre ++ c :: post) i last = i + Z.of_nat (length pre).
Proof.
  intros Hpost. revert i last.
  induction pre as [|x pre IH]; intros i last; simpl.
  - rewrite N.eqb_refl, rfind_from_absent by exact Hpost. lia.
  - rewrite IH. lia.
Qed.

(** A string either lacks [c] or splits at its last occurrence. *)
Lemma last_occurrence c (s : str) :
  Forall (fun x => x <> c) s \/
  exists pre post, s = pre ++ c :: post /\ Forall (fun x => x <> c) post.
Proof.
  induction s as [|x s [IH | (pre & post & -> & Hpost)]].
  - left. constructor.
  - destruct (N.eq_dec x c) as [->|Hx].
    + right. exists [], s. split; [reflexivity|exact IH].
    + left. constructor; assumption.
  - right. exists (x :: pre), post. split; [reflexivity|exact Hpost].
Qed.

Lemma char_at_middle (done todo : str) x :
  char_at (done ++ x :: todo) (Z.of_nat (length done)) = [x].
Proof.
  unfold char_at.
  destruct (Z.ltb_spec (Z.of_nat (length done)) 0) as [Hneg|_]; [lia|].
  rewrite Nat2Z.id, drop_app_length. reflexivity.
Qed.

Lemma skip_leading_dots_scan (done todo rest : str) :
  OsPath.skip_leading_dots (done ++ todo ++ rest)
    (Z.of_nat (length done)) (length todo)
  = existsb not_dot todo.
Proof.
  revert done. induction todo as [|x todo IH]; intros done; simpl.
  - reflexivity.
  - rewrite char_at_middle. unfold not_dot at 1.
    destruct (N.eqb_spec x OsPath.extsep) as [->|Hx]; simpl.
    + specialize (IH (done ++ [OsPath.extsep])).
      rewrite <- app_assoc, length_app in IH. simpl in IH.
      replace (Z.of_nat (length done) + 1)
        with (Z.of_nat (length done + 1)) by lia.
      exact IH.
    + rewrite decide_False; [reflexivity|]. intros [= ->]. contradiction.
Qed.

Lemma suffix_from_last_absent c s :
  Forall (fun x => x <> c) s -> suffix_from_last c s = [].
Proof.
  induction 1 as [|x s Hx _ IH]; simpl; [reflexivity|].
  rewrite IH. apply N.eqb_neq in Hx. rewrite Hx. reflexivity.
Qed.

Lemma suffix_from_last_split c pre post :
  Forall (fun x => x <> c) post ->
  suffix_from_last c (pre ++ c :: post) = c :: post.
Proof.
  intros Hpost. induction pre as [|x pre IH]; simpl.
  - rewrite suffix_from_last_absent by exact Hpost.
    rewrite N.eqb_refl. reflexivity.
  - rewrite IH. reflexivity.
Qed.

Lemma strip_leading_absent c s :
  Forall (fun x => x <> c) s -> strip_leading c s = s.
Proof.
  destruct 1 as [|x s Hx _]; simpl; [reflexivity|].
  apply N.eqb_neq in Hx. rewrite Hx. reflexivity.
Qed.

Lemma strip_leading_all_dots pre rest :
  existsb not_dot pre = false ->
  strip_leading OsPath.extsep (pre ++ rest) = strip_leading OsPath.extsep rest.
Proof.
  induction pre as [|x pre IH]; simpl; [reflexivity|].
  unfold not_dot at 1.
  destruct (N.eqb_spec x OsPath.extsep) as [->|Hx]; simpl; [exact IH|discriminate].
Qed.

Lemma strip_leading_some_other pre rest :
  existsb not_dot pre = true ->
  exists pre', strip_leading OsPath.extsep (pre ++ rest) = pre' ++ rest.
Proof.
  induction pre as [|x pre IH]; simpl; [discriminate|].
  unfold not_dot at 1.
  destruct (N.eqb_spec x OsPath.extsep) as [->|Hx]; simpl.
  - exact IH.
  - intros _. exists (x :: pre). reflexivity.
Qed.

Lemma suffix_from_last_strip c s :
  suffix_from_last c (strip_leading c s) <> [] ->
  suffix_from_last c s = suffix_from_last c (strip_leading c s).
Proof.
  induction s as [|x s IH]; [reflexivity|].
  cbn [strip_leading].
  destruct (N.eqb_spec x c) as [->|Hx]; [|reflexivity].
  intros Hne. rewrite <- (IH Hne). cbn [suffix_from_last].
  destruct (suffix_from_last c s) eqn:E; [|reflexivity].
  exfalso. apply Hne. symmetry. exact (IH Hne).
Qed.

(** The extension of an entry name: the part from its last dot on,
    dots that open the name not counted. *)
Lemma ext_of_entry (name : str) :
  no_sep name ->
  ext_of name = suffix_from_last OsPath.extsep (strip_leading OsPath.extsep name).
Proof.
  intros Hn. unfold ext_of, OsPath.splitext, rfind.
  rewrite (rfind_from_absent OsPath.sep name) by exact Hn.
  destruct (last_occurrence OsPath.extsep name)
    as [Hnodot | (pre & post & -> & Hpost)].
  - rewrite rfind_from_absent by exact Hnodot. simpl.
    rewrite strip_leading_absent, suffix_from_last_absent by exact Hnodot.
    reflexivity.
  - rewrite rfind_from_last by exact Hpost.
    replace (-1 <? 0 + Z.of_nat (length pre)) with true
      by (symmetry; apply Z.ltb_lt; lia).
    replace (Z.to_nat (0 + Z.of_nat (length pre) - (-1 + 1)))
      with (length pre) by lia.
    change (-1 + 1) with (Z.of_nat (length (@nil N))).
    change (pre ++ OsPath.extsep :: post)
      with ([] ++ pre ++ OsPath.extsep :: post) at 1.
    rewrite skip_leading_dots_scan. simpl.
    destruct (existsb not_dot pre) eqn:Hpre; simpl.
    + destruct (strip_leading_some_other pre (OsPath.extsep :: post) Hpre)
        as [pre' ->].
      rewrite suffix_from_last_split by exact Hpost.
      unfold slice_from. rewrite Z.add_0_l, Nat2Z.id, drop_app_length.
      reflexivity.
    + rewrite strip_leading_all_dots by exact Hpre. simpl.
      rewrite strip_leading_absent, suffix_from_last_absent by exact Hpost.
      reflexivity.
Qed.

Lemma ext_of_dotfile (letters : str) :
  no_sep letters -> Forall (fun x => x <> OsPath.extsep) letters ->
  ext_of (OsPath.extsep :: letters) = [].
Proof.
  intros Hn Hd. rewrite ext_of_entry.
  - simpl. rewrite strip_leading_absent, suffix_from_last_absent by exact Hd.
    reflexivity.
  - constructor; [discriminate|exact Hn].
Qed.

End Splitext.

(** ** Claims about extensions *)

Section ExtensionClaims.
Import Runner Spec.

(** C6, as the specification words it, fails on the name [.py]: the
    part of the name from its last dot on is [.py], a key of
    [RUNNERS], yet [os.path.splitext] gives such a name no extension
    and the locator passes it over. *)
Lemma ext_of_dot_py_not_last_dot_suffix :
  no_sep (lit ".py") /\
  suffix_from_last OsPath.extsep (lit ".py") = lit ".py" /\
  dict_in (lit ".py") RUNNERS = true /\
  ext_of (lit ".py") = [] /\
  ext_of (lit ".py") <> suffix_from_last OsPath.extsep (lit ".py").
Proof.
  split; [solve_no_sep|]. repeat split; try reflexivity. discriminate.
Qed.

(** C6, amended. For every entry name the extension matched against
    the registry is the part of the name from its last dot on, dot
    included, where the dots that open the name do not count: whenever
    the locator finds an extension it is that last-dot suffix; a name
    with no dot, or with dots at its start only, has the empty
    extension; a name that ends in its dot, after some other
    character, has the extension [.]; and an entry with the empty
    extension is skipped whatever the workspace holds. *)
Theorem ext_of_last_dot_suffix (name : str) :
  no_sep name ->
  ext_of name
    = suffix_from_last OsPath.extsep (strip_leading OsPath.extsep name) /\
  (ext_of name <> [] -> ext_of name = suffix_from_last OsPath.extsep name) /\
  (Forall (fun x => x <> OsPath.extsep) (strip_leading OsPath.extsep name) ->
   ext_of name = []) /\
  (forall stem,
      name = stem ++ [OsPath.extsep] -> existsb not_dot stem = true ->
      ext_of name = [OsPath.extsep]) /\
  (ext_of name = [] -> forall ws, runnable ws name = false).
Proof.
  intros Hn. pose proof (ext_of_entry name Hn) as He. split; [exact He|].
  split; [|split; [|split]].
  - intros Hne. rewrite He in Hne |- *. symmetry.
    apply suffix_from_last_strip. exact Hne.
  - intros Hd. rewrite He. apply suffix_from_last_absent. exact Hd.
  - intros stem -> Hstem. rewrite He.
    destruct (strip_leading_some_other stem [OsPath.extsep] Hstem) as [pre ->].
    apply suffix_from_last_split. constructor.
  - intros Hnil ws. unfold runnable. rewrite Hnil. apply andb_false_r.
Qed.

Lemma ext_of_last_dot_suffix_witness :
  no_sep (lit "archive.tar.gz") /\
  ext_of (lit "archive.tar.gz") = lit ".gz" /\
  ext_of (lit "archive.tar.gz")
    = suffix_from_last OsPath.extsep (lit "archive.tar.gz").
Proof.
  assert (Hn : no_sep (lit "archive.tar.gz")) by solve_no_sep.
  split; [exact Hn|]. split; [reflexivity|].
  apply (ext_of_last_dot_suffix (lit "archive.tar.gz") Hn). discriminate.
Defined.

(** C10. A file whose name is one dot followed by characters that hold
    no further dot, such as [.py] or [.sh], has no extension for the
    locator and is never the file it returns. *)
Theorem dotfile_never_selected (w : world) (letters : str) :
  wf_workspace (workspace w) ->
  no_sep letters ->
  Forall (fun x => x <> OsPath.extsep) letters ->
  ext_of (OsPath.extsep :: letters) = [] /\
  runnable (workspace w) (OsPath.extsep :: letters) = false /\
  forall r w' ext,
    find_snippet w = (Ret r, w') ->
    r <> Some (OsPath.join WORKSPACE (OsPath.extsep :: letters), ext).
Proof.
  intros Hwf Hn Hd. pose proof (ext_of_dotfile letters Hn Hd) as He.
  assert (Hr : runnable (workspace w) (OsPath.extsep :: letters) = false).
  { unfold runnable. rewrite He. apply andb_false_r. }
  split; [exact He|]. split; [exact Hr|].
  intros r w' ext. rewrite find_snippet_locate. intros [= <- <-] Hl.
  destruct (locate_some _ _ _ Hwf Hl) as (name & [Hc _] & Hj & _).
  apply join_workspace_inj in Hj.
  - subst name. apply runnable_candidate in Hc. congruence.
  - constructor; [discriminate|exact Hn].
  - destruct (candidate_listed _ _ Hc) as [n Hlk]. eapply Hwf. exact Hlk.
Qed.

Lemma dotfile_never_selected_witness :
  wf_workspace (workspace Demo.w0) /\
  is_regular (workspace Demo.w0 !! lit ".py") = true /\
  forall r w' ext,
    find_snippet Demo.w0 = (Ret r, w') ->
    r <> Some (lit "/workspace/.py", ext).
Proof.
  assert (Hwf : wf_workspace (workspace Demo.w0)).
  { unfold Demo.w0, Demo.ws, workspace. solve_wf. }
  split; [exact Hwf|]. split; [vm_compute; reflexivity|].
  apply (dotfile_never_selected Demo.w0 (lit "py") Hwf).
  - solve_no_sep.
  - apply Forall_forall. intros x Hx Heq. subst x.
    apply list_elem_of_In in Hx. vm_compute in Hx. intuition discriminate.
Defined.

End ExtensionClaims.

(** ** The executor, step by step *)

Section Executor.
Import Runner Spec.

Lemma makedirs_output ws so se sp :
  makedirs OUTPUT_DIR (World ws so se sp) =
    match ws !! lit "output" with
    | None => (Ret tt, World (<[lit "output" := NDir ∅]> ws) so se sp)
    | Some (NDir _) => (Ret tt, World ws so se sp)
    | Some _ => (Raise OSError, World ws so se sp)
    end.
Proof. reflexivity. Qed.

Lemma open_result ws so se sp :
  open_w RESULT_PATH (World ws so se sp) =
    match ws !! lit "output" with
    | Some (NDir ch) =>
        match ch !! lit "result.txt" with
        | Some LDir => (Raise OSError, World ws so se sp)
        | _ =>
            (Ret RESULT_PATH,
             World (<[lit "output" := NDir (<[lit "result.txt" := LFile []]> ch)]> ws)
                   so se sp)
        end
    | _ => (Raise OSError, World ws so se sp)
    end.
Proof. reflexivity. Qed.

Lemma fwrite_result ws so se sp data :
  fwrite RESULT_PATH data (World ws so se sp) =
    match ws !! lit "output" with
    | Some (NDir ch) =>
        match ch !! lit "result.txt" with
        | Some (LFile c) =>
            (Ret tt,
             World (<[lit "output" :=
                        NDir (<[lit "result.txt" := LFile (c ++ data)]> ch)]> ws)
                   so se sp)
        | _ => (Raise OSError, World ws so se sp)
        end
    | _ => (Raise OSError, World ws so se sp)
    end.
Proof. reflexivity. Qed.

Lemma fwrite_artifact ws so se sp ch text data :
  fwrite RESULT_PATH data
    (World (<[lit "output" := NDir (<[lit "result.txt" := LFile text]> ch)]> ws)
           so se sp)
  = (Ret tt,
     World (<[lit "output" :=
                NDir (<[lit "result.txt" := LFile (text ++ data)]> ch)]> ws)
           so se sp).
Proof.
  rewrite fwrite_result, lookup_insert_eq, lookup_insert_eq.
  rewrite !insert_insert_eq. reflexivity.
Qed.

Lemma open_after_makedirs {A} (k : str -> M A) ws so se sp :
  can_persist ws ->
  bind (makedirs OUTPUT_DIR) (fun _ => bind (open_w RESULT_PATH) k)
    (World ws so se sp)
  = k RESULT_PATH (World (with_artifact ws []) so se sp).
Proof.
  unfold can_persist, with_artifact, output_children.
  unfold bind at 1. rewrite makedirs_output. unfold bind.
  destruct (ws !! lit "output") as [[c|ch|]|] eqn:E; try contradiction.
  - intros Hr. rewrite open_result, E.
    destruct (ch !! lit "result.txt") as [[c|]|]; try reflexivity.
    contradiction.
  - intros _. rewrite open_result, lookup_insert_eq, lookup_empty.
    rewrite insert_insert_eq. reflexivity.
Qed.

Lemma fwrite_with_artifact {A} (k : unit -> M A) ws so se sp text data :
  bind (fwrite RESULT_PATH data) k (World (with_artifact ws text) so se sp)
  = k tt (World (with_artifact ws (text ++ data)) so se sp).
Proof.
  unfold bind, with_artifact. rewrite fwrite_artifact. reflexivity.
Qed.

Lemma echo_stdout {A} (k : unit -> M A) ws so se sp label out :
  bind (when (truthy out) (print label ;; print out)) k (World ws so se sp)
  = k tt (World ws (so ++ echo label out) se sp).
Proof.
  unfold echo, when, bind, print, ret. destruct (truthy out); simpl.
  - rewrite <- !app_assoc. reflexivity.
  - rewrite app_nil_r. reflexivity.
Qed.

Lemma echo_stderr {A} (k : unit -> M A) ws so se sp label err :
  bind (when (truthy err) (print_stderr label ;; print_stderr err)) k
    (World ws so se sp)
  = k tt (World ws so (se ++ echo label err) sp).
Proof.
  unfold echo, when, bind, print_stderr, ret. destruct (truthy err); simpl.
  - rewrite <- !app_assoc. reflexivity.
  - rewrite app_nil_r. reflexivity.
Qed.

Lemma run_snippet_exited L c path ext base r w :
  dict_get RUNNERS ext = Some base ->
  completes c (call_of L base path) r ->
  can_persist (workspace w) ->
  let out := slice_to (stdout r) (MAX_OUTPUT_KB L * 1024) in
  let err := slice_to (stderr r) (MAX_OUTPUT_KB L * 1024) in
  run_snippet L c path ext w =
    (Ret (returncode r),
     World (with_artifact (workspace w) (artifact_text (returncode r) out err))
           (sys_stdout w ++ console_out L (base ++ [path]) (returncode r) out)
           (sys_stderr w ++ echo (lit "--- stderr ---") err)
           (spawned w ++ [call_of L base path])).
Proof.
  intros Hget Hc Hp out err. destruct w as [ws so se sp].
  destruct r as [code text_out text_err].
  destruct Hc as (raw_out & raw_err & Hc & Hout & Herr).
  unfold run_snippet. unfold bind at 1. rewrite Hget. unfold ret at 1.
  unfold bind at 1. unfold print at 1.
  unfold bind at 1. unfold try_except, subprocess_run.
  cbn [workspace sys_stdout sys_stderr spawned returncode stdout stderr]
    in Hp, Hc, Hout, Herr |- *.
  unfold call_of in Hc. rewrite Hc, Hout, Herr.
  cbn [returncode stdout stderr] in out, err |- *.
  fold out err. rewrite echo_stdout, echo_stderr.
  change (OsPath.join OUTPUT_DIR (lit "result.txt")) with RESULT_PATH.
  rewrite open_after_makedirs by exact Hp.
  rewrite !fwrite_with_artifact.
  unfold when, artifact_text, console_out, running_line, call_of.
  destruct (truthy err).
  - rewrite fwrite_with_artifact. unfold bind, print, ret.
    cbn [workspace sys_stdout sys_stderr spawned].
    rewrite <- !app_assoc. reflexivity.
  - unfold bind, print, ret.
    cbn [workspace sys_stdout sys_stderr spawned].
    rewrite <- !app_assoc. rewrite !app_nil_r. reflexivity.
Qed.

Lemma run_snippet_timed_out L c path ext base w :
  dict_get RUNNERS ext = Some base ->
  c (call_of L base path) = TimedOut ->
  run_snippet L c path ext w =
    (SysExit 124,
     World (workspace w)
           (sys_stdout w ++ running_line L (base ++ [path]) ++ nl)
           (sys_stderr w ++ timeout_message L ++ nl)
           (spawned w ++ [call_of L base path])).
Proof.
  intros Hget Hc. destruct w as [ws so se sp].
  unfold run_snippet. unfold bind at 1. rewrite Hget. unfold ret at 1.
  unfold bind at 1. unfold print at 1.
  unfold bind at 1. unfold try_except, subprocess_run.
  cbn [workspace sys_stdout sys_stderr spawned].
  unfold call_of in Hc. rewrite Hc.
  reflexivity.
Qed.

Lemma run_snippet_spawn_failed L c path ext base w :
  dict_get RUNNERS ext = Some base ->
  c (call_of L base path) = SpawnFailed ->
  run_snippet L c path ext w =
    (Raise OSError,
     World (workspace w)
           (sys_stdout w ++ running_line L (base ++ [path]) ++ nl)
           (sys_stderr w)
           (spawned w ++ [call_of L base path])).
Proof.
  intros Hget Hc. destruct w as [ws so se sp].
  unfold run_snippet. unfold bind at 1. rewrite Hget. unfold ret at 1.
  unfold bind at 1. unfold print at 1.
  unfold bind at 1. unfold try_except, subprocess_run.
  cbn [workspace sys_stdout sys_stderr spawned].
  unfold call_of in Hc. rewrite Hc.
  reflexivity.
Qed.

Lemma run_snippet_undecodable L c path ext base w :
  dict_get RUNNERS ext = Some base ->
  undecodable c (call_of L base path) ->
  run_snippet L c path ext w =
    (Raise UnicodeDecodeError,
     World (workspace w)
           (sys_stdout w ++ running_line L (base ++ [path]) ++ nl)
           (sys_stderr w)
           (spawned w ++ [call_of L base path])).
Proof.
  intros Hget (code & raw_out & raw_err & Hc & Hbad).
  destruct w as [ws so se sp].
  unfold run_snippet. unfold bind at 1. rewrite Hget. unfold ret at 1.
  unfold bind at 1. unfold print at 1.
  unfold bind at 1. unfold try_except, subprocess_run.
  cbn [workspace sys_stdout sys_stderr spawned].
  unfold call_of in Hc. rewrite Hc.
  destruct Hbad as [Hbad | Hbad]; rewrite Hbad.
  - reflexivity.
  - destruct (decode_text raw_out); reflexivity.
Qed.

(** The four things that can become of the call. *)
Lemma outcome_cases (c : child) (call : spawn) :
  (exists r, completes c call r) \/ undecodable c call \/
  c call = TimedOut \/ c call = SpawnFailed.
Proof.
  destruct (c call) as [code raw_out raw_err| |] eqn:Hc; auto.
  destruct (decode_text raw_out) as [text_out|] eqn:Ho.
  - destruct (decode_text raw_err) as [text_err|] eqn:He.
    + left. exists (Completed code text_out text_err), raw_out, raw_err.
      rewrite Hc. auto.
    + right. left. exists code, raw_out, raw_err. rewrite Hc. auto.
  - right. left. exists code, raw_out, raw_err. rewrite Hc. auto.
Qed.

Lemma read_with_artifact ws text :
  read_file (with_artifact ws text) RESULT_PATH = Some text.
Proof.
  unfold with_artifact.
  change (read_file ?m RESULT_PATH) with
    (match m !! lit "output" with
     | Some (NDir ch) =>
         match ch !! lit "result.txt" with Some (LFile c) => Some c | _ => None end
     | _ => None
     end).
  rewrite lookup_insert_eq, lookup_insert_eq. reflexivity.
Qed.

Lemma can_persist_with_artifact ws text : can_persist (with_artifact ws text).
Proof.
  unfold can_persist, with_artifact.
  rewrite lookup_insert_eq, lookup_insert_eq. discriminate.
Qed.

Lemma with_artifact_twice ws text1 text2 :
  with_artifact (with_artifact ws text1) text2 = with_artifact ws text2.
Proof.
  unfold with_artifact at 1. unfold output_children at 1.
  unfold with_artifact at 1 2. rewrite lookup_insert_eq.
  rewrite !insert_insert_eq. reflexivity.
Qed.

(** *** Only [subprocess.run] starts a process *)

Lemma keeps_bind {A B} (c : M A) (k : A -> M B) :
  keeps_spawned c -> (forall a, keeps_spawned (k a)) -> keeps_spawned (bind c k).
Proof.
  intros Hc Hk w. unfold bind. specialize (Hc w).
  destruct (c w) as [[a|code|e] w']; simpl in *; try exact Hc.
  rewrite Hk. exact Hc.
Qed.

Lemma keeps_ret {A} (a : A) : keeps_spawned (ret a).
Proof. intros w. reflexivity. Qed.

Lemma keeps_sys_exit {A} code : keeps_spawned (@sys_exit A code).
Proof. intros w. reflexivity. Qed.

Lemma keeps_print s : keeps_spawned (print s).
Proof. intros w. reflexivity. Qed.

Lemma keeps_print_stderr s : keeps_spawned (print_stderr s).
Proof. intros w. reflexivity. Qed.

Lemma keeps_when b c : keeps_spawned c -> keeps_spawned (when b c).
Proof. destruct b; [trivial|]. intros _. apply keeps_ret. Qed.

Lemma keeps_makedirs path : keeps_spawned (makedirs path).
Proof.
  intros w. unfold makedirs. repeat case_match; reflexivity.
Qed.

Lemma keeps_open_w path : keeps_spawned (open_w path).
Proof.
  intros w. unfold open_w. repeat case_match; reflexivity.
Qed.

Lemma keeps_fwrite f data : keeps_spawned (fwrite f data).
Proof.
  intros w. unfold fwrite. repeat case_match; reflexivity.
Qed.

Lemma run_snippet_spawned L c path ext base w :
  dict_get RUNNERS ext = Some base ->
  spawned (run_snippet L c path ext w).2 = spawned w ++ [call_of L base path].
Proof.
  intros Hget. destruct w as [ws so se sp].
  unfold run_snippet. unfold bind at 1. rewrite Hget. unfold ret at 1.
  unfold bind at 1. unfold print at 1.
  unfold bind at 1. unfold try_except, subprocess_run.
  cbn [workspace sys_stdout sys_stderr spawned].
  fold (call_of L base path).
  destruct (c (call_of L base path)) as [code raw_out raw_err| |];
    try reflexivity.
  destruct (decode_text raw_out) as [text_out|]; [|reflexivity].
  destruct (decode_text raw_err) as [text_err|]; [|reflexivity].
  match goal with
  | |- spawned (?m ?w0).2 = _ =>
      assert (Hk : keeps_spawned m); [|rewrite Hk; reflexivity]
  end.
  repeat first
    [ apply keeps_bind; [|intros ?]
    | apply keeps_when
    | apply keeps_print | apply keeps_print_stderr
    | apply keeps_makedirs | apply keeps_open_w | apply keeps_fwrite
    | apply keeps_ret ].
Qed.

(** *** The entry point *)

Lemma main_not_found L c w :
  locate (workspace w) = None ->
  main L c w =
    (SysExit 1,
     World (workspace w)
           (sys_stdout w ++ lit "Supported extensions: .py, .sh" ++ nl)
           (sys_stderr w ++ lit "No runnable code found in /workspace" ++ nl)
           (spawned w)).
Proof.
  intros Hl. unfold main. unfold bind at 1.
  rewrite find_snippet_locate, Hl. reflexivity.
Qed.

Lemma main_found L c w path ext :
  locate (workspace w) = Some (path, ext) ->
  main L c w = bind (run_snippet L c path ext) sys_exit w.
Proof.
  intros Hl. unfold main. unfold bind at 1.
  rewrite find_snippet_locate, Hl. reflexivity.
Qed.

Lemma locate_registered ws path ext :
  wf_workspace ws -> locate ws = Some (path, ext) ->
  exists base, dict_get RUNNERS ext = Some base.
Proof.
  intros Hwf Hl.
  destruct (locate_some _ _ _ Hwf Hl) as (name & [[_ Hin] _] & _ & ->).
  unfold dict_in in Hin.
  destruct (dict_get RUNNERS (ext_of name)) as [base|]; [eauto|discriminate].
Qed.

End Executor.

(** ** The artifact across runs *)

Section Reruns.
Import Runner Spec.

Lemma bind_sys_exit_world (m : M Z) w :
  (bind m (@sys_exit unit) w).2 = (m w).2.
Proof. unfold bind. destruct (m w) as [[a|code|e] w']; reflexivity. Qed.

Lemma is_regular_with_artifact ws text name :
  can_persist ws ->
  is_regular (with_artifact ws text !! name) = is_regular (ws !! name).
Proof.
  intros Hp. unfold with_artifact.
  destruct (decide (name = lit "output")) as [->|Hne].
  - rewrite lookup_insert_eq. unfold can_persist in Hp.
    destruct (ws !! lit "output") as [[c|ch|]|]; try contradiction; reflexivity.
  - rewrite lookup_insert_ne by congruence. reflexivity.
Qed.

Lemma candidate_with_artifact ws text name :
  can_persist ws ->
  candidate (with_artifact ws text) name <-> candidate ws name.
Proof.
  intros Hp. unfold candidate. rewrite (is_regular_with_artifact _ _ _ Hp).
  tauto.
Qed.

Lemma first_candidate_with_artifact ws text name :
  can_persist ws ->
  first_candidate (with_artifact ws text) name <-> first_candidate ws name.
Proof.
  intros Hp. unfold first_candidate.
  rewrite (candidate_with_artifact _ _ _ Hp). split; intros [Hc Hmin].
  - split; [exact Hc|]. intros name' Hc'. apply Hmin.
    apply candidate_with_artifact; assumption.
  - split; [exact Hc|]. intros name' Hc'. apply Hmin.
    apply (candidate_with_artifact _ text); assumption.
Qed.

Lemma wf_with_artifact ws text :
  wf_workspace ws -> wf_workspace (with_artifact ws text).
Proof.
  intros Hwf. unfold with_artifact.
  apply wf_workspace_insert; [solve_no_sep|exact Hwf].
Qed.

(** Writing the artifact does not change what the locator finds. *)
Lemma locate_with_artifact ws text :
  wf_workspace ws -> can_persist ws ->
  locate (with_artifact ws text) = locate ws.
Proof.
  intros Hwf Hp. pose proof (wf_with_artifact ws text Hwf) as Hwf'.
  destruct (locate ws) as [[full ext]|] eqn:Hl.
  - destruct (locate_some _ _ _ Hwf Hl) as (name & Hfc & -> & ->).
    apply locate_first; [exact Hwf'|].
    apply first_candidate_with_artifact; assumption.
  - apply locate_none; [exact Hwf'|]. intros name Hc.
    apply (proj1 (locate_none _ Hwf) Hl name).
    apply (candidate_with_artifact _ text); assumption.
Qed.

(** One run leaves the workspace as it was or with a fresh artifact. *)
Lemma main_workspace L c w :
  wf_workspace (workspace w) -> can_persist (workspace w) ->
  workspace (main L c w).2 = workspace w \/
  exists text, workspace (main L c w).2 = with_artifact (workspace w) text.
Proof.
  intros Hwf Hp. destruct (locate (workspace w)) as [[path ext]|] eqn:Hl.
  - destruct (locate_registered _ _ _ Hwf Hl) as [base Hget].
    rewrite (main_found _ _ _ _ _ Hl), bind_sys_exit_world.
    destruct (outcome_cases c (call_of L base path))
      as [[r Hc] | [Hc | [Hc | Hc]]].
    + right. rewrite (run_snippet_exited _ _ _ _ _ _ _ Hget Hc Hp).
      eexists. reflexivity.
    + left. rewrite (run_snippet_undecodable _ _ _ _ _ _ Hget Hc). reflexivity.
    + left. rewrite (run_snippet_timed_out _ _ _ _ _ _ Hget Hc). reflexivity.
    + left. rewrite (run_snippet_spawn_failed _ _ _ _ _ _ Hget Hc). reflexivity.
  - left. rewrite (main_not_found _ _ _ Hl). reflexivity.
Qed.

Lemma main_exited L c w path ext base r :
  locate (workspace w) = Some (path, ext) ->
  dict_get RUNNERS ext = Some base ->
  completes c (call_of L base path) r ->
  can_persist (workspace w) ->
  let out := slice_to (stdout r) (MAX_OUTPUT_KB L * 1024) in
  let err := slice_to (stderr r) (MAX_OUTPUT_KB L * 1024) in
  main L c w =
    (SysExit (returncode r),
     World (with_artifact (workspace w) (artifact_text (returncode r) out err))
           (sys_stdout w ++ console_out L (base ++ [path]) (returncode r) out)
           (sys_stderr w ++ echo (lit "--- stderr ---") err)
           (spawned w ++ [call_of L base path])).
Proof.
  intros Hl Hget Hc Hp out err. rewrite (main_found _ _ _ _ _ Hl).
  unfold bind. rewrite (run_snippet_exited _ _ _ _ _ _ _ Hget Hc Hp).
  reflexivity.
Qed.

Lemma main_undecodable L c w path ext base :
  locate (workspace w) = Some (path, ext) ->
  dict_get RUNNERS ext = Some base ->
  undecodable c (call_of L base path) ->
  main L c w =
    (Raise UnicodeDecodeError,
     World (workspace w)
           (sys_stdout w ++ running_line L (base ++ [path]) ++ nl)
           (sys_stderr w)
           (spawned w ++ [call_of L base path])).
Proof.
  intros Hl Hget Hc. rewrite (main_found _ _ _ _ _ Hl).
  unfold bind. rewrite (run_snippet_undecodable _ _ _ _ _ _ Hget Hc).
  reflexivity.
Qed.

Lemma main_timed_out L c w path ext base :
  locate (workspace w) = Some (path, ext) ->
  dict_get RUNNERS ext = Some base ->
  c (call_of L base path) = TimedOut ->
  main L c w =
    (SysExit 124,
     World (workspace w)
           (sys_stdout w ++ running_line L (base ++ [path]) ++ nl)
           (sys_stderr w ++ timeout_message L ++ nl)
           (spawned w ++ [call_of L base path])).
Proof.
  intros Hl Hget Hc. rewrite (main_found _ _ _ _ _ Hl).
  unfold bind. rewrite (run_snippet_timed_out _ _ _ _ _ _ Hget Hc).
  reflexivity.
Qed.

End Reruns.

(** ** Claims about the executor *)

Section ExecutorClaims.
Import Runner Spec.

Lemma utf8_ascii (s : str) :
  Forall (fun c => (c < 128)%N) s -> utf8 s = s.
Proof.
  induction 1 as [|c s Hc _ IH]; [reflexivity|].
  unfold utf8 in *. simpl. rewrite IH. unfold utf8_char.
  apply N.ltb_lt in Hc. rewrite Hc. reflexivity.
Qed.

Lemma slice_to_nonneg {A} (s : list A) (n : Z) :
  0 <= n -> slice_to s n = firstn (Z.to_nat n) s.
Proof.
  intros Hn. unfold slice_to. apply Z.leb_le in Hn. rewrite Hn. reflexivity.
Qed.

(** C1, on the code. With a cap of one kibibyte and a child that
    writes 1025 times the letter e-acute (2050 bytes of UTF-8) and
    exits with 0, the run completes and the stdout block of the
    artifact holds 1024 characters, which the text file stores as 2048
    bytes: twice the cap, and not the first 1024 bytes of the
    stream. *)
Lemma accents_exceed_byte_cap :
  let L := Limits 30 1 in
  let stream := utf8 (repeat 233%N 1025) in
  let kept := repeat 233%N 1024 in
  Demo.child_accents (call_of L [lit "python3"] (lit "/workspace/a.py"))
    = Exited 0 stream [] /\
  length stream = 2050%nat /\
  (main L Demo.child_accents Demo.w_single).1 = SysExit 0 /\
  read_file (workspace (main L Demo.child_accents Demo.w_single).2) RESULT_PATH
    = Some (artifact_text 0 kept []) /\
  length (utf8 kept) = 2048%nat /\
  utf8 kept <> firstn 1024 stream.
Proof.
  cbv zeta. split; [reflexivity|]. split; [vm_compute; reflexivity|].
  assert (Hrun :
    main (Limits 30 1) Demo.child_accents Demo.w_single
    = (SysExit 0,
       World (with_artifact (workspace Demo.w_single)
                (artifact_text 0
                   (slice_to (repeat 233%N 1025) (1 * 1024))
                   (slice_to [] (1 * 1024))))
             (sys_stdout Demo.w_single
              ++ console_out (Limits 30 1)
                   ([lit "python3"] ++ [lit "/workspace/a.py"]) 0
                   (slice_to (repeat 233%N 1025) (1 * 1024)))
             (sys_stderr Demo.w_single
              ++ echo (lit "--- stderr ---") (slice_to [] (1 * 1024)))
             (spawned Demo.w_single
              ++ [call_of (Limits 30 1) [lit "python3"]
                    (lit "/workspace/a.py")]))).
  { apply (main_exited (Limits 30 1) Demo.child_accents Demo.w_single
             (lit "/workspace/a.py") (lit ".py") [lit "python3"]
             (Completed 0 (repeat 233%N 1025) [])).
    - vm_compute. reflexivity.
    - reflexivity.
    - exists (utf8 (repeat 233%N 1025)), []. split; [reflexivity|].
      split; vm_compute; reflexivity.
    - vm_compute. exact I. }
  rewrite Hrun. cbn [fst snd workspace].
  split; [reflexivity|]. split; [|split].
  - rewrite read_with_artifact. reflexivity.
  - vm_compute. reflexivity.
  - intros H. apply (f_equal length) in H. vm_compute in H. discriminate.
Qed.

(** C2. When the child is still running at the timeout, the
    invocation ends with exit code 124, the error channel receives one
    more line, which names the configured timeout, and the workspace,
    the output directory and any earlier artifact in it included, is
    what it was before the run. *)
Theorem timeout_exits_124 L c w path ext base :
  locate (workspace w) = Some (path, ext) ->
  dict_get RUNNERS ext = Some base ->
  c (call_of L base path) = TimedOut ->
  exists w',
    main L c w = (SysExit 124, w') /\
    exit_status (main L c w).1 = 124 /\
    sys_stderr w' =
      sys_stderr w ++ lit "Error: execution timed out after "
      ++ str_of_int (TIMEOUT L) ++ lit "s" ++ nl /\
    workspace w' = workspace w /\
    read_file (workspace w') RESULT_PATH = read_file (workspace w) RESULT_PATH.
Proof.
  intros Hl Hget Hc. rewrite (main_timed_out _ _ _ _ _ _ Hl Hget Hc).
  eexists. split; [reflexivity|]. cbn [fst workspace sys_stderr].
  split; [reflexivity|]. split; [|split; reflexivity].
  unfold timeout_message. rewrite <- !app_assoc. reflexivity.
Qed.

Lemma timeout_exits_124_witness :
  locate (workspace Demo.w0) = Some (lit "/workspace/a.sh", lit ".sh") /\
  exists w',
    main default_limits Demo.child_slow Demo.w0 = (SysExit 124, w') /\
    exit_status (main default_limits Demo.child_slow Demo.w0).1 = 124 /\
    sys_stderr w' =
      sys_stderr Demo.w0 ++ lit "Error: execution timed out after "
      ++ str_of_int (TIMEOUT default_limits) ++ lit "s" ++ nl /\
    workspace w' = workspace Demo.w0 /\
    read_file (workspace w') RESULT_PATH
      = read_file (workspace Demo.w0) RESULT_PATH.
Proof.
  assert (Hl : locate (workspace Demo.w0)
               = Some (lit "/workspace/a.sh", lit ".sh"))
    by (vm_compute; reflexivity).
  split; [exact Hl|].
  apply (timeout_exits_124 default_limits Demo.child_slow Demo.w0
           (lit "/workspace/a.sh") (lit ".sh") [lit "bash"] Hl eq_refl eq_refl).
Defined.

(** C3, on the code. A child that exits with 0 within the timeout
    after writing the single byte 0xFF on its stdout: the artifact
    could be written, yet the script dies of the [UnicodeDecodeError]
    that [subprocess.run] raises in text mode. Its exit status is 1,
    not 0, and no artifact is written. *)
Lemma undecodable_output_exits_1 :
  let c := Demo.child_binary in
  let call := call_of default_limits [lit "python3"] (lit "/workspace/a.py") in
  locate (workspace Demo.w_single) = Some (lit "/workspace/a.py", lit ".py") /\
  c call = Exited 0 [255%N] [] /\
  can_persist (workspace Demo.w_single) /\
  (main default_limits c Demo.w_single).1 = Raise UnicodeDecodeError /\
  exit_status (main default_limits c Demo.w_single).1 = 1 /\
  workspace (main default_limits c Demo.w_single).2 = workspace Demo.w_single /\
  read_file (workspace (main default_limits c Demo.w_single).2) RESULT_PATH
    = None.
Proof.
  cbv zeta.
  assert (Hl : locate (workspace Demo.w_single)
               = Some (lit "/workspace/a.py", lit ".py"))
    by (vm_compute; reflexivity).
  split; [exact Hl|]. split; [reflexivity|].
  split; [vm_compute; exact I|].
  rewrite (main_undecodable default_limits Demo.child_binary Demo.w_single
             (lit "/workspace/a.py") (lit ".py") [lit "python3"] Hl eq_refl).
  - cbn [fst snd workspace]. repeat split; reflexivity.
  - exists 0, [255%N], []. split; [reflexivity|]. left. reflexivity.
Qed.

(** C5, on the code. With nothing runnable in the workspace the
    script exits with status 1; the failure message goes to the error
    channel, but the list of supported extensions is printed on the
    normal output channel. *)
Theorem no_snippet_extensions_on_stdout L c :
  main L c (World ∅ [] [] []) =
    (SysExit 1,
     World ∅
           (lit "Supported extensions: .py, .sh" ++ nl)
           (lit "No runnable code found in /workspace" ++ nl)
           []) /\
  exit_status (main L c (World ∅ [] [] [])).1 = 1.
Proof. split; reflexivity. Qed.

(** C7. On every normal completion the artifact at the fixed result
    path is the [exit_code] line, then the stdout block, which is
    always there, then the stderr block when the truncated stderr is
    not empty and nothing when it is. *)
Theorem artifact_layout L c w path ext base r :
  locate (workspace w) = Some (path, ext) ->
  dict_get RUNNERS ext = Some base ->
  completes c (call_of L base path) r ->
  can_persist (workspace w) ->
  let out := slice_to (stdout r) (MAX_OUTPUT_KB L * 1024) in
  let err := slice_to (stderr r) (MAX_OUTPUT_KB L * 1024) in
  let text := read_file (workspace (main L c w).2) RESULT_PATH in
  OsPath.join OUTPUT_DIR (lit "result.txt") = RESULT_PATH /\
  (err = [] ->
   text = Some (lit "exit_code: " ++ str_of_int (returncode r) ++ nl
                ++ lit "--- stdout ---" ++ nl ++ out ++ nl)) /\
  (err <> [] ->
   text = Some (lit "exit_code: " ++ str_of_int (returncode r) ++ nl
                ++ lit "--- stdout ---" ++ nl ++ out ++ nl
                ++ lit "--- stderr ---" ++ nl ++ err ++ nl)).
Proof.
  intros Hl Hget Hc Hp out err text. split; [reflexivity|].
  unfold text. rewrite (main_exited _ _ _ _ _ _ _ Hl Hget Hc Hp).
  cbn [snd workspace]. rewrite read_with_artifact. fold out err.
  unfold artifact_text. split.
  - intros ->. cbn [truthy]. rewrite app_nil_r. reflexivity.
  - intros Hne. destruct err; [contradiction|]. reflexivity.
Qed.

Lemma artifact_layout_witness :
  locate (workspace Demo.w0) = Some (lit "/workspace/a.sh", lit ".sh") /\
  can_persist (workspace Demo.w0) /\
  read_file
    (workspace (main default_limits Demo.child_exit3 Demo.w0).2) RESULT_PATH
  = Some (lit "exit_code: " ++ str_of_int 3 ++ nl
          ++ lit "--- stdout ---" ++ nl ++ lit "hi" ++ nl
          ++ lit "--- stderr ---" ++ nl ++ lit "warn" ++ nl).
Proof.
  assert (Hl : locate (workspace Demo.w0)
               = Some (lit "/workspace/a.sh", lit ".sh"))
    by (vm_compute; reflexivity).
  assert (Hp : can_persist (workspace Demo.w0)) by (vm_compute; exact I).
  split; [exact Hl|]. split; [exact Hp|].
  apply (artifact_layout default_limits Demo.child_exit3 Demo.w0
           (lit "/workspace/a.sh") (lit ".sh") [lit "bash"]
           (Completed 3 (lit "hi") (lit "warn")) Hl eq_refl ltac:(solve_completes) Hp).
  discriminate.
Defined.

(** C8. Two runs in a row on the same workspace, the second of which
    completes: whatever the first run did, the workspace after the
    second run, and the artifact in it, are exactly those of a single
    run of the second alone; the artifact holds the second result
    only. *)
Theorem second_run_overwrites L c1 c2 w path ext base r :
  wf_workspace (workspace w) ->
  can_persist (workspace w) ->
  locate (workspace w) = Some (path, ext) ->
  dict_get RUNNERS ext = Some base ->
  completes c2 (call_of L base path) r ->
  let after_first := (main L c1 w).2 in
  let twice := (main L c2 after_first).2 in
  let once := (main L c2 w).2 in
  workspace twice = workspace once /\
  read_file (workspace twice) RESULT_PATH
    = read_file (workspace once) RESULT_PATH /\
  read_file (workspace twice) RESULT_PATH
    = Some (artifact_text (returncode r)
              (slice_to (stdout r) (MAX_OUTPUT_KB L * 1024))
              (slice_to (stderr r) (MAX_OUTPUT_KB L * 1024))).
Proof.
  intros Hwf Hp Hl Hget Hc after_first twice once.
  assert (Hl1 : locate (workspace after_first) = Some (path, ext) /\
                can_persist (workspace after_first) /\
                forall text,
                  with_artifact (workspace after_first) text
                  = with_artifact (workspace w) text).
  { unfold after_first.
    destruct (main_workspace L c1 w Hwf Hp) as [-> | [text ->]].
    - auto.
    - rewrite (locate_with_artifact _ _ Hwf Hp).
      split; [exact Hl|]. split; [apply can_persist_with_artifact|].
      intros text'. apply with_artifact_twice. }
  destruct Hl1 as (Hl1 & Hp1 & Hsame).
  unfold twice, once.
  rewrite (main_exited _ _ _ _ _ _ _ Hl1 Hget Hc Hp1).
  rewrite (main_exited _ _ _ _ _ _ _ Hl Hget Hc Hp).
  cbn [snd workspace]. rewrite Hsame, read_with_artifact. auto.
Qed.

Lemma second_run_overwrites_witness :
  wf_workspace (workspace Demo.w0) /\
  can_persist (workspace Demo.w0) /\
  locate (workspace Demo.w0) = Some (lit "/workspace/a.sh", lit ".sh") /\
  read_file
    (workspace
       (main default_limits Demo.child_exit3
          (main default_limits Demo.child_accents Demo.w0).2).2)
    RESULT_PATH
  = read_file
      (workspace (main default_limits Demo.child_exit3 Demo.w0).2) RESULT_PATH.
Proof.
  assert (Hwf : wf_workspace (workspace Demo.w0)).
  { unfold Demo.w0, Demo.ws, workspace. solve_wf. }
  assert (Hl : locate (workspace Demo.w0)
               = Some (lit "/workspace/a.sh", lit ".sh"))
    by (vm_compute; reflexivity).
  assert (Hp : can_persist (workspace Demo.w0)) by (vm_compute; exact I).
  split; [exact Hwf|]. split; [exact Hp|]. split; [exact Hl|].
  apply (second_run_overwrites default_limits Demo.child_accents
           Demo.child_exit3 Demo.w0 (lit "/workspace/a.sh") (lit ".sh")
           [lit "bash"] (Completed 3 (lit "hi") (lit "warn"))
           Hwf Hp Hl eq_refl ltac:(solve_completes)).
Defined.

(** C9. For every located snippet the script starts one process: its
    command is the interpreter tokens [RUNNERS] holds for the
    extension followed by the absolute path of the snippet, and its
    working directory is the workspace root. *)
Theorem command_is_interpreter_then_path L c w path ext :
  wf_workspace (workspace w) ->
  locate (workspace w) = Some (path, ext) ->
  exists base name,
    dict_get RUNNERS ext = Some base /\
    is_regular (workspace w !! name) = true /\
    path = lit "/workspace" ++ [OsPath.sep] ++ name /\
    spawned (main L c w).2 =
      spawned w ++ [Spawn (base ++ [path]) (lit "/workspace") (TIMEOUT L)].
Proof.
  intros Hwf Hl.
  destruct (locate_registered _ _ _ Hwf Hl) as [base Hget].
  destruct (locate_some _ _ _ Hwf Hl) as (name & [[Hreg _] _] & Hj & _).
  exists base, name. split; [exact Hget|]. split; [exact Hreg|]. split.
  - rewrite Hj. apply join_workspace_no_sep.
    destruct (workspace w !! name) as [n|] eqn:Hn; [|discriminate].
    eapply Hwf. exact Hn.
  - rewrite (main_found _ _ _ _ _ Hl), bind_sys_exit_world.
    apply run_snippet_spawned. exact Hget.
Qed.

Lemma command_is_interpreter_then_path_witness :
  wf_workspace (workspace Demo.w_single) /\
  locate (workspace Demo.w_single) = Some (lit "/workspace/a.py", lit ".py") /\
  spawned (main default_limits Demo.child_exit3 Demo.w_single).2 =
    [Spawn [lit "python3"; lit "/workspace/a.py"] (lit "/workspace") 30].
Proof.
  assert (Hwf : wf_workspace (workspace Demo.w_single)).
  { unfold Demo.w_single, Demo.ws_single, workspace.
    intros name n H. apply lookup_singleton_Some in H as [<- _].
    solve_no_sep. }
  assert (Hl : locate (workspace Demo.w_single)
               = Some (lit "/workspace/a.py", lit ".py"))
    by (vm_compute; reflexivity).
  split; [exact Hwf|]. split; [exact Hl|].
  destruct (command_is_interpreter_then_path default_limits Demo.child_exit3
              Demo.w_single (lit "/workspace/a.py") (lit ".py") Hwf Hl)
    as (base & name & Hget & _ & _ & Hsp).
  injection Hget as <-. exact Hsp.
Defined.

End ExecutorClaims.

(** ** More on the locator *)

Section LocatorFacts.
Import Runner Spec.

Lemma rfind_from_lower c s i last :
  -1 <= last -> 0 <= i -> -1 <= rfind_from c s i last.
Proof.
  revert i last. induction s as [|x s IH]; intros i last Hl Hi; simpl.
  - exact Hl.
  - apply IH; [|lia]. destruct (N.eqb x c); lia.
Qed.

Lemma splitext_concat (p : str) :
  (OsPath.splitext p).1 ++ (OsPath.splitext p).2 = p.
Proof.
  unfold OsPath.splitext.
  pose proof (rfind_from_lower OsPath.sep p 0 (-1) ltac:(lia) ltac:(lia)) as Hs.
  fold (rfind p OsPath.sep) in Hs.
  destruct (rfind p OsPath.sep <? rfind p OsPath.extsep) eqn:Hlt; simpl.
  - destruct (OsPath.skip_leading_dots _ _ _); simpl.
    + apply Z.ltb_lt in Hlt. unfold slice_to, slice_from.
      destruct (Z.leb_spec 0 (rfind p OsPath.extsep)) as [_|Hneg]; [|lia].
      apply take_drop.
    + apply app_nil_r.
  - apply app_nil_r.
Qed.

(** The two ways [splitext] treats an entry name. *)
Lemma splitext_entry (name : str) :
  no_sep name ->
  OsPath.splitext name = (name, []) \/
  exists stem post,
    name = stem ++ OsPath.extsep :: post /\
    Forall (fun x => x <> OsPath.extsep) post /\
    existsb not_dot stem = true /\
    OsPath.splitext name = (stem, OsPath.extsep :: post).
Proof.
  intros Hn.
  pose proof (splitext_concat name) as Hcat.
  pose proof (ext_of_entry name Hn) as He. unfold ext_of in He.
  destruct (OsPath.splitext name) as [root ext] eqn:Hsp. simpl in *.
  destruct (last_occurrence OsPath.extsep name)
    as [Hnodot | (pre & post & Hname & Hpost)].
  - left. rewrite strip_leading_absent, suffix_from_last_absent in He
      by exact Hnodot.
    subst ext. rewrite app_nil_r in Hcat. subst root. reflexivity.
  - destruct (existsb not_dot pre) eqn:Hpre.
    + right. exists pre, post.
      rewrite Hname in He.
      destruct (strip_leading_some_other pre (OsPath.extsep :: post) Hpre)
        as [pre' Hst].
      rewrite Hst, suffix_from_last_split in He by exact Hpost.
      subst ext. rewrite Hname in Hcat. apply app_inv_tail in Hcat.
      subst root. auto.
    + left. rewrite Hname in He.
      rewrite strip_leading_all_dots in He by exact Hpre. simpl in He.
      rewrite strip_leading_absent, suffix_from_last_absent in He
        by exact Hpost.
      subst ext. rewrite app_nil_r in Hcat. subst root. reflexivity.
Qed.

Lemma dict_in_runners ext :
  dict_in ext RUNNERS = true -> ext = lit ".py" \/ ext = lit ".sh".
Proof.
  unfold dict_in, RUNNERS. cbn [dict_get].
  destruct (decide (ext = lit ".py")) as [->|_]; [auto|].
  destruct (decide (ext = lit ".sh")) as [->|_]; [auto|discriminate].
Qed.

End LocatorFacts.

(** ** Further properties of the locator *)

Section LocatorProperties.
Import Runner Spec.

(** X1. Whatever [find_snippet] returns is well formed: the extension is
    [.py] or [.sh], and the path is [/workspace/], a stem with a
    character other than the dot in it, and that extension, naming a
    regular file of the workspace; the world is left as it was. *)
Theorem find_snippet_result_shape (w w' : world) (path ext : str) :
  wf_workspace (workspace w) ->
  find_snippet w = (Ret (Some (path, ext)), w') ->
  w' = w /\
  (ext = lit ".py" \/ ext = lit ".sh") /\
  exists stem,
    existsb not_dot stem = true /\
    path = lit "/workspace/" ++ stem ++ ext /\
    is_regular (workspace w !! (stem ++ ext)) = true.
Proof.
  intros Hwf. rewrite find_snippet_locate. intros [= Hl <-].
  split; [reflexivity|].
  destruct (locate_some _ _ _ Hwf Hl) as (name & [[Hreg Hin] _] & -> & ->).
  split; [apply dict_in_runners; exact Hin|].
  assert (Hn : no_sep name).
  { destruct (workspace w !! name) as [n|] eqn:E; [|discriminate].
    eapply Hwf. exact E. }
  unfold ext_of in *.
  destruct (splitext_entry name Hn) as [Hsp | (stem & post & -> & _ & Hstem & Hsp)].
  - rewrite Hsp in Hin. discriminate.
  - rewrite Hsp. simpl. exists stem. split; [exact Hstem|].
    split; [|exact Hreg].
    rewrite (join_workspace_no_sep _ Hn). reflexivity.
Qed.

Lemma find_snippet_result_shape_witness :
  wf_workspace (workspace Demo.w0) /\
  find_snippet Demo.w0
    = (Ret (Some (lit "/workspace/a.sh", lit ".sh")), Demo.w0) /\
  exists stem,
    existsb not_dot stem = true /\
    lit "/workspace/a.sh" = lit "/workspace/" ++ stem ++ lit ".sh" /\
    is_regular (workspace Demo.w0 !! (stem ++ lit ".sh")) = true.
Proof.
  assert (Hwf : wf_workspace (workspace Demo.w0)).
  { unfold Demo.w0, Demo.ws, workspace. solve_wf. }
  assert (Hf : find_snippet Demo.w0
               = (Ret (Some (lit "/workspace/a.sh", lit ".sh")), Demo.w0))
    by (vm_compute; reflexivity).
  split; [exact Hwf|]. split; [exact Hf|].
  apply (find_snippet_result_shape Demo.w0 Demo.w0 _ _ Hwf Hf).
Defined.

(** X2. An entry that is not a regular file (a directory, a socket, a
    name that is not there) is never what [find_snippet] returns,
    whatever its name. *)
Theorem non_regular_entry_never_selected (w : world) (name : str) :
  wf_workspace (workspace w) ->
  no_sep name ->
  is_regular (workspace w !! name) = false ->
  forall r w' ext,
    find_snippet w = (Ret r, w') ->
    r <> Some (OsPath.join WORKSPACE name, ext).
Proof.
  intros Hwf Hn Hreg r w' ext. rewrite find_snippet_locate.
  intros [= <- <-] Hl.
  destruct (locate_some _ _ _ Hwf Hl) as (name' & [[Hreg' _] _] & Hj & _).
  apply join_workspace_inj in Hj.
  - subst name'. congruence.
  - exact Hn.
  - destruct (workspace w !! name') as [n|] eqn:E; [|discriminate].
    eapply Hwf. exact E.
Qed.

Lemma non_regular_entry_never_selected_witness :
  wf_workspace (workspace Demo.w_dir_py) /\
  workspace Demo.w_dir_py !! lit "a.py" = Some (NDir ∅) /\
  find_snippet Demo.w_dir_py
    = (Ret (Some (lit "/workspace/b.sh", lit ".sh")), Demo.w_dir_py) /\
  forall r w' ext,
    find_snippet Demo.w_dir_py = (Ret r, w') ->
    r <> Some (lit "/workspace/a.py", ext).
Proof.
  assert (Hwf : wf_workspace (workspace Demo.w_dir_py)).
  { unfold Demo.w_dir_py, Demo.ws_dir_py, workspace. solve_wf. }
  split; [exact Hwf|]. split; [vm_compute; reflexivity|].
  split; [vm_compute; reflexivity|].
  apply (non_regular_entry_never_selected Demo.w_dir_py (lit "a.py") Hwf).
  - solve_no_sep.
  - vm_compute. reflexivity.
Defined.

(** X3. The result of [find_snippet] depends on the runnable files only:
    two workspaces with the same regular files of a registered
    extension give the same answer, whatever else they hold and in
    whatever order the directory is listed. *)
Theorem find_snippet_depends_on_runnable_files (w1 w2 : world) :
  wf_workspace (workspace w1) ->
  wf_workspace (workspace w2) ->
  (forall name, candidate (workspace w1) name <-> candidate (workspace w2) name) ->
  (find_snippet w1).1 = (find_snippet w2).1.
Proof.
  intros Hwf1 Hwf2 Hsame. rewrite !find_snippet_locate. simpl. f_equal.
  destruct (locate (workspace w1)) as [[full ext]|] eqn:Hl.
  - destruct (locate_some _ _ _ Hwf1 Hl) as (name & [Hc Hmin] & -> & ->).
    symmetry. apply locate_first; [exact Hwf2|]. split.
    + apply Hsame. exact Hc.
    + intros name' Hc'. apply Hmin. apply Hsame. exact Hc'.
  - symmetry. apply locate_none; [exact Hwf2|]. intros name Hc.
    apply (proj1 (locate_none _ Hwf1) Hl name). apply Hsame. exact Hc.
Qed.

Lemma find_snippet_depends_on_runnable_files_witness :
  wf_workspace (workspace Demo.w_single) /\
  wf_workspace (workspace Demo.w_kept) /\
  (find_snippet Demo.w_single).1 = (find_snippet Demo.w_kept).1.
Proof.
  assert (Hwf1 : wf_workspace (workspace Demo.w_single)).
  { unfold Demo.w_single, Demo.ws_single, workspace.
    intros name n H. apply lookup_singleton_Some in H as [<- _].
    solve_no_sep. }
  assert (Hwf2 : wf_workspace (workspace Demo.w_kept)).
  { unfold Demo.w_kept, Demo.ws_kept, workspace. solve_wf. }
  split; [exact Hwf1|]. split; [exact Hwf2|].
  apply (find_snippet_depends_on_runnable_files Demo.w_single Demo.w_kept
           Hwf1 Hwf2).
  intros name. unfold candidate, Demo.w_single, Demo.w_kept, Demo.ws_single,
    Demo.ws_kept, workspace.
  destruct (decide (name = lit "a.py")) as [->|Hne].
  - rewrite lookup_singleton_eq, lookup_insert_eq. tauto.
  - rewrite lookup_singleton_ne, lookup_insert_ne by congruence.
    destruct (decide (name = lit "output")) as [->|Hne'].
    + rewrite lookup_insert_eq. tauto.
    + rewrite lookup_insert_ne, lookup_empty by congruence. tauto.
Defined.

End LocatorProperties.

(** ** More on the executor *)

Section ExecutorFacts.
Import Runner Spec.

Lemma can_persist_dec ws : can_persist ws \/ ~ can_persist ws.
Proof.
  unfold can_persist.
  destruct (ws !! lit "output") as [[c|ch|]|]; auto.
  destruct (ch !! lit "result.txt") as [[c|]|];
    [left; discriminate | right; intros H; apply H; reflexivity
    | left; discriminate].
Qed.

Lemma persist_blocked {A} (k : str -> M A) ws so se sp :
  ~ can_persist ws ->
  bind (makedirs OUTPUT_DIR) (fun _ => bind (open_w RESULT_PATH) k)
    (World ws so se sp)
  = (Raise OSError, World ws so se sp).
Proof.
  unfold can_persist. intros Hno.
  unfold bind at 1. rewrite makedirs_output.
  destruct (ws !! lit "output") as [[c|ch|]|] eqn:E; try reflexivity.
  - unfold bind. rewrite open_result, E.
    destruct (ch !! lit "result.txt") as [[c|]|]; try reflexivity;
      exfalso; apply Hno; discriminate.
  - exfalso. apply Hno. exact I.
Qed.

Lemma run_snippet_blocked L c path ext base r w :
  dict_get RUNNERS ext = Some base ->
  completes c (call_of L base path) r ->
  ~ can_persist (workspace w) ->
  let out := slice_to (stdout r) (MAX_OUTPUT_KB L * 1024) in
  let err := slice_to (stderr r) (MAX_OUTPUT_KB L * 1024) in
  run_snippet L c path ext w =
    (Raise OSError,
     World (workspace w)
           (sys_stdout w ++ running_line L (base ++ [path]) ++ nl
            ++ echo (lit "--- stdout ---") out)
           (sys_stderr w ++ echo (lit "--- stderr ---") err)
           (spawned w ++ [call_of L base path])).
Proof.
  intros Hget Hc Hp out err. destruct w as [ws so se sp].
  destruct r as [code text_out text_err].
  destruct Hc as (raw_out & raw_err & Hc & Hout & Herr).
  unfold run_snippet. unfold bind at 1. rewrite Hget. unfold ret at 1.
  unfold bind at 1. unfold print at 1.
  unfold bind at 1. unfold try_except, subprocess_run.
  cbn [workspace sys_stdout sys_stderr spawned returncode stdout stderr]
    in Hp, Hc, Hout, Herr |- *.
  unfold call_of in Hc. rewrite Hc, Hout, Herr.
  cbn [returncode stdout stderr] in out, err |- *.
  fold out err. rewrite echo_stdout, echo_stderr.
  change (OsPath.join OUTPUT_DIR (lit "result.txt")) with RESULT_PATH.
  rewrite persist_blocked by exact Hp.
  unfold running_line, call_of. rewrite <- !app_assoc. reflexivity.
Qed.

Lemma main_blocked L c w path ext base r :
  locate (workspace w) = Some (path, ext) ->
  dict_get RUNNERS ext = Some base ->
  completes c (call_of L base path) r ->
  ~ can_persist (workspace w) ->
  let out := slice_to (stdout r) (MAX_OUTPUT_KB L * 1024) in
  let err := slice_to (stderr r) (MAX_OUTPUT_KB L * 1024) in
  main L c w =
    (Raise OSError,
     World (workspace w)
           (sys_stdout w ++ running_line L (base ++ [path]) ++ nl
            ++ echo (lit "--- stdout ---") out)
           (sys_stderr w ++ echo (lit "--- stderr ---") err)
           (spawned w ++ [call_of L base path])).
Proof.
  intros Hl Hget Hc Hp out err. rewrite (main_found _ _ _ _ _ Hl).
  unfold bind. rewrite (run_snippet_blocked _ _ _ _ _ _ _ Hget Hc Hp).
  reflexivity.
Qed.

Lemma main_spawn_failed L c w path ext base :
  locate (workspace w) = Some (path, ext) ->
  dict_get RUNNERS ext = Some base ->
  c (call_of L base path) = SpawnFailed ->
  main L c w =
    (Raise OSError,
     World (workspace w)
           (sys_stdout w ++ running_line L (base ++ [path]) ++ nl)
           (sys_stderr w)
           (spawned w ++ [call_of L base path])).
Proof.
  intros Hl Hget Hc. rewrite (main_found _ _ _ _ _ Hl).
  unfold bind. rewrite (run_snippet_spawn_failed _ _ _ _ _ _ Hget Hc).
  reflexivity.
Qed.

Lemma utf8_decode_ascii (raw : list N) :
  Forall (fun b => (b < 128)%N) raw -> utf8_decode raw = Some raw.
Proof.
  induction 1 as [|b raw Hb _ IH]; [reflexivity|].
  cbn [utf8_decode]. apply N.ltb_lt in Hb. rewrite Hb, IH. reflexivity.
Qed.

Lemma translate_newlines_no_cr (s : str) :
  Forall (fun b => b <> 13%N) s -> translate_newlines s = s.
Proof.
  induction 1 as [|b s Hb _ IH]; [reflexivity|].
  cbn [translate_newlines]. apply N.eqb_neq in Hb. rewrite Hb, IH.
  reflexivity.
Qed.

Lemma decode_text_plain (raw : list N) :
  plain raw -> decode_text raw = Some raw.
Proof.
  intros Hp. unfold decode_text.
  rewrite utf8_decode_ascii, translate_newlines_no_cr; [reflexivity|..].
  - eapply Forall_impl; [exact Hp|]. intros b [_ Hb]. exact Hb.
  - eapply Forall_impl; [exact Hp|]. intros b [Hb _]. exact Hb.
Qed.

(** For plain output the captured text is what the child wrote. *)
Lemma completes_plain c call r code raw_out raw_err :
  completes c call r ->
  c call = Exited code raw_out raw_err ->
  plain raw_out -> plain raw_err ->
  stdout r = raw_out /\ stderr r = raw_err.
Proof.
  intros (ro & re & Hc & Ho & He) Hc' Hpo Hpe.
  rewrite Hc in Hc'. injection Hc' as _ -> ->.
  rewrite (decode_text_plain _ Hpo) in Ho.
  rewrite (decode_text_plain _ Hpe) in He.
  injection Ho as <-. injection He as <-. auto.
Qed.

Lemma slice_to_whole {A} (s : list A) (n : Z) :
  Z.of_nat (length s) <= n -> slice_to s n = s.
Proof.
  intros Hlen. rewrite slice_to_nonneg by lia. apply take_ge. lia.
Qed.

Lemma slice_to_nil {A} (n : Z) : slice_to (@nil A) n = [].
Proof. unfold slice_to. destruct (0 <=? n); apply firstn_nil. Qed.

Lemma slice_to_negative {A} (s : list A) (n : Z) :
  n < 0 -> slice_to s n = firstn (length s - Z.to_nat (- n)) s.
Proof.
  intros Hn. unfold slice_to.
  destruct (Z.leb_spec 0 n) as [Hpos|_]; [lia|].
  f_equal. lia.
Qed.

(** *** The decimal rendering of the return code *)

Lemma lit_inj (s1 s2 : String.string) : lit s1 = lit s2 -> s1 = s2.
Proof.
  revert s2. induction s1 as [|a1 s1 IH]; intros [|a2 s2]; try discriminate.
  - reflexivity.
  - unfold lit. simpl. intros [= Ha Hs]. f_equal.
    + rewrite <- (ascii_N_embedding a1), <- (ascii_N_embedding a2), Ha.
      reflexivity.
    + apply IH. exact Hs.
Qed.

Lemma str_of_int_inj (a b : Z) : str_of_int a = str_of_int b -> a = b.
Proof.
  unfold str_of_int. intros H. apply lit_inj in H.
  apply DecimalZ.to_int_inj.
  assert (Hnil : forall z, Z.to_int z <> Decimal.Pos Decimal.Nil /\
                           Z.to_int z <> Decimal.Neg Decimal.Nil).
  { intros [|q|q]; simpl; split; try discriminate; intros [= Hq];
      apply (DecimalPos.Unsigned.to_uint_nonnil q); exact Hq. }
  destruct (Hnil a) as [Ha1 Ha2]. destruct (Hnil b) as [Hb1 Hb2].
  pose proof (NilZero.isi _ Ha1 Ha2) as Ia.
  pose proof (NilZero.isi _ Hb1 Hb2) as Ib.
  rewrite H in Ia. rewrite Ia in Ib. injection Ib as Ib. exact Ib.
Qed.

Lemma uint_no_newline (d : Decimal.uint) :
  Forall (fun x => x <> 10%N) (lit (NilEmpty.string_of_uint d)).
Proof.
  induction d; unfold lit in *; simpl; constructor;
    try assumption; discriminate.
Qed.

Lemma str_of_int_no_newline (z : Z) :
  Forall (fun x => x <> 10%N) (str_of_int z).
Proof.
  unfold str_of_int.
  destruct (Z.to_int z) as [d|d]; simpl.
  - destruct d; try apply uint_no_newline.
    unfold lit. simpl. constructor; [discriminate|constructor].
  - unfold lit. simpl. constructor; [discriminate|].
    destruct d; try apply uint_no_newline.
    simpl. constructor; [discriminate|constructor].
Qed.

Lemma split_at_first (c : N) (s1 s2 r1 r2 : str) :
  Forall (fun x => x <> c) s1 -> Forall (fun x => x <> c) s2 ->
  s1 ++ c :: r1 = s2 ++ c :: r2 -> s1 = s2.
Proof.
  intros H1. revert s2. induction H1 as [|x s1 Hx _ IH]; intros s2 H2 Heq.
  - destruct H2 as [|y s2 Hy _]; [reflexivity|].
    simpl in Heq. injection Heq as Heq _. congruence.
  - destruct H2 as [|y s2 Hy H2].
    + simpl in Heq. injection Heq as Heq _. congruence.
    + simpl in Heq. injection Heq as -> Heq. f_equal. eapply IH; eassumption.
Qed.

Lemma artifact_text_code (code1 code2 : Z) (out1 err1 out2 err2 : str) :
  artifact_text code1 out1 err1 = artifact_text code2 out2 err2 ->
  code1 = code2.
Proof.
  unfold artifact_text. intros H. apply app_inv_head in H.
  apply str_of_int_inj.
  eapply (split_at_first 10%N); [apply str_of_int_no_newline ..|exact H].
Qed.

End ExecutorFacts.

(** ** Further properties of the executor *)

Section ExecutorProperties.
Import Runner Spec.

(** X4. The console after a normal completion. The normal channel gets
    the [Running:] line, the stdout section only when the truncated
    stdout is not empty, the exit code and the path of the artifact;
    the error channel gets the stderr section only when the truncated
    stderr is not empty. *)
Theorem console_transcript L c w path ext base r :
  locate (workspace w) = Some (path, ext) ->
  dict_get RUNNERS ext = Some base ->
  completes c (call_of L base path) r ->
  can_persist (workspace w) ->
  let out := slice_to (stdout r) (MAX_OUTPUT_KB L * 1024) in
  let err := slice_to (stderr r) (MAX_OUTPUT_KB L * 1024) in
  let w' := (main L c w).2 in
  sys_stdout w' =
    sys_stdout w
    ++ lit "Running: " ++ join (lit " ") (base ++ [path])
    ++ lit " (timeout=" ++ str_of_int (TIMEOUT L) ++ lit "s)" ++ nl
    ++ (if truthy out then lit "--- stdout ---" ++ nl ++ out ++ nl else [])
    ++ nl ++ lit "Exit code: " ++ str_of_int (returncode r) ++ nl
    ++ lit "Output saved to: /workspace/output/result.txt" ++ nl /\
  sys_stderr w' =
    sys_stderr w
    ++ (if truthy err then lit "--- stderr ---" ++ nl ++ err ++ nl else []).
Proof.
  intros Hl Hget Hc Hp out err w'. unfold w'.
  rewrite (main_exited _ _ _ _ _ _ _ Hl Hget Hc Hp).
  cbn [snd sys_stdout sys_stderr]. fold out err.
  unfold console_out, running_line, echo. rewrite <- !app_assoc.
  split; reflexivity.
Qed.

Lemma console_transcript_witness :
  locate (workspace Demo.w_single) = Some (lit "/workspace/a.py", lit ".py") /\
  can_persist (workspace Demo.w_single) /\
  sys_stdout (main default_limits Demo.child_quiet Demo.w_single).2 =
    lit "Running: python3 /workspace/a.py (timeout=30s)" ++ nl
    ++ nl ++ lit "Exit code: 0" ++ nl
    ++ lit "Output saved to: /workspace/output/result.txt" ++ nl /\
  sys_stderr (main default_limits Demo.child_quiet Demo.w_single).2 = [].
Proof.
  assert (Hl : locate (workspace Demo.w_single)
               = Some (lit "/workspace/a.py", lit ".py"))
    by (vm_compute; reflexivity).
  assert (Hp : can_persist (workspace Demo.w_single)) by (vm_compute; exact I).
  split; [exact Hl|]. split; [exact Hp|].
  apply (console_transcript default_limits Demo.child_quiet Demo.w_single
           (lit "/workspace/a.py") (lit ".py") [lit "python3"]
           (Completed 0 [] []) Hl eq_refl ltac:(solve_completes) Hp).
Defined.

(** X5. When the artifact cannot be written (the output name is taken by
    something that is not a directory, or the result name by a
    directory), the child has still been run and its output echoed,
    but the script dies of the uncaught [OSError]: its exit status is
    1, not the child's code, and the workspace is left as it was. *)
Theorem persistence_failure_is_fatal L c w path ext base r :
  locate (workspace w) = Some (path, ext) ->
  dict_get RUNNERS ext = Some base ->
  completes c (call_of L base path) r ->
  ~ can_persist (workspace w) ->
  let w' := (main L c w).2 in
  (main L c w).1 = Raise OSError /\
  exit_status (main L c w).1 = 1 /\
  workspace w' = workspace w /\
  spawned w' = spawned w ++ [call_of L base path] /\
  sys_stderr w' =
    sys_stderr w
    ++ echo (lit "--- stderr ---")
         (slice_to (stderr r) (MAX_OUTPUT_KB L * 1024)).
Proof.
  intros Hl Hget Hc Hp w'. unfold w'.
  rewrite (main_blocked _ _ _ _ _ _ _ Hl Hget Hc Hp).
  repeat split; reflexivity.
Qed.

Lemma persistence_failure_is_fatal_witness :
  locate (workspace Demo.w_blocked) = Some (lit "/workspace/a.py", lit ".py") /\
  ~ can_persist (workspace Demo.w_blocked) /\
  (main default_limits Demo.child_exit3 Demo.w_blocked).1 = Raise OSError /\
  exit_status (main default_limits Demo.child_exit3 Demo.w_blocked).1 = 1 /\
  workspace (main default_limits Demo.child_exit3 Demo.w_blocked).2
    = workspace Demo.w_blocked.
Proof.
  assert (Hl : locate (workspace Demo.w_blocked)
               = Some (lit "/workspace/a.py", lit ".py"))
    by (vm_compute; reflexivity).
  assert (Hp : ~ can_persist (workspace Demo.w_blocked)).
  { intros H. vm_compute in H. exact H. }
  split; [exact Hl|]. split; [exact Hp|].
  pose proof (persistence_failure_is_fatal default_limits Demo.child_exit3
                Demo.w_blocked (lit "/workspace/a.py") (lit ".py")
                [lit "python3"] (Completed 3 (lit "hi") (lit "warn"))
                Hl eq_refl ltac:(solve_completes) Hp) as (H1 & H2 & H3 & _).
  split; [exact H1|]. split; [exact H2|exact H3].
Defined.

(** X6. When the interpreter cannot be started, the [OSError] of
    [subprocess.run] is not caught by the timeout handler: the script
    ends with exit status 1, nothing is added to the error channel by
    the script, and the workspace is left as it was. *)
Theorem spawn_failure_propagates L c w path ext base :
  locate (workspace w) = Some (path, ext) ->
  dict_get RUNNERS ext = Some base ->
  c (call_of L base path) = SpawnFailed ->
  let w' := (main L c w).2 in
  (main L c w).1 = Raise OSError /\
  exit_status (main L c w).1 = 1 /\
  sys_stderr w' = sys_stderr w /\
  workspace w' = workspace w.
Proof.
  intros Hl Hget Hc w'. unfold w'.
  rewrite (main_spawn_failed _ _ _ _ _ _ Hl Hget Hc).
  repeat split; reflexivity.
Qed.

Lemma spawn_failure_propagates_witness :
  locate (workspace Demo.w0) = Some (lit "/workspace/a.sh", lit ".sh") /\
  (main default_limits Demo.child_missing Demo.w0).1 = Raise OSError /\
  exit_status (main default_limits Demo.child_missing Demo.w0).1 = 1 /\
  sys_stderr (main default_limits Demo.child_missing Demo.w0).2
    = sys_stderr Demo.w0 /\
  workspace (main default_limits Demo.child_missing Demo.w0).2
    = workspace Demo.w0.
Proof.
  assert (Hl : locate (workspace Demo.w0)
               = Some (lit "/workspace/a.sh", lit ".sh"))
    by (vm_compute; reflexivity).
  split; [exact Hl|].
  apply (spawn_failure_propagates default_limits Demo.child_missing Demo.w0
           (lit "/workspace/a.sh") (lit ".sh") [lit "bash"]
           Hl eq_refl eq_refl).
Defined.

(** X7. [run_snippet] called with an extension that is not a key of
    [RUNNERS] raises [KeyError] at once: nothing is printed, no
    process is started, the workspace is not touched. *)
Theorem unregistered_extension_raises_keyerror L c w path ext :
  dict_in ext RUNNERS = false ->
  run_snippet L c path ext w = (Raise KeyError, w).
Proof.
  unfold dict_in. intros Hin. unfold run_snippet, bind.
  destruct (dict_get RUNNERS ext); [discriminate|]. reflexivity.
Qed.

Lemma unregistered_extension_raises_keyerror_witness :
  dict_in (lit ".rb") RUNNERS = false /\
  run_snippet default_limits Demo.child_exit3
    (lit "/workspace/a.rb") (lit ".rb") Demo.w0
  = (Raise KeyError, Demo.w0).
Proof.
  split; [reflexivity|].
  apply (unregistered_extension_raises_keyerror default_limits
           Demo.child_exit3 Demo.w0 (lit "/workspace/a.rb") (lit ".rb")).
  reflexivity.
Defined.

(** X8. Started from the entry point, the [RUNNERS] lookup of
    [run_snippet] cannot fail: the locator hands over registered
    extensions only, so whatever the workspace holds and whatever the
    child does the script never ends in [KeyError]. Nor does it run
    off its end: every run ends in [sys.exit] or in an uncaught
    exception. *)
Theorem main_never_raises_keyerror L c w :
  wf_workspace (workspace w) ->
  (forall path ext,
      (find_snippet w).1 = Ret (Some (path, ext)) ->
      dict_in ext RUNNERS = true) /\
  (main L c w).1 <> Raise KeyError /\
  (main L c w).1 <> Ret tt.
Proof.
  intros Hwf. split.
  - intros path ext. rewrite find_snippet_locate. simpl. intros [= Hl].
    destruct (locate_registered _ _ _ Hwf Hl) as [base Hget].
    unfold dict_in. rewrite Hget. reflexivity.
  - destruct (locate (workspace w)) as [[path ext]|] eqn:Hl.
    + destruct (locate_registered _ _ _ Hwf Hl) as [base Hget].
      destruct (outcome_cases c (call_of L base path))
        as [[r Hc] | [Hc | [Hc | Hc]]].
      * destruct (can_persist_dec (workspace w)) as [Hp|Hp].
        -- rewrite (main_exited _ _ _ _ _ _ _ Hl Hget Hc Hp).
           split; discriminate.
        -- rewrite (main_blocked _ _ _ _ _ _ _ Hl Hget Hc Hp).
           split; discriminate.
      * rewrite (main_undecodable _ _ _ _ _ _ Hl Hget Hc). split; discriminate.
      * rewrite (main_timed_out _ _ _ _ _ _ Hl Hget Hc). split; discriminate.
      * rewrite (main_spawn_failed _ _ _ _ _ _ Hl Hget Hc). split; discriminate.
    + rewrite (main_not_found _ _ _ Hl). split; discriminate.
Qed.

Lemma main_never_raises_keyerror_witness :
  wf_workspace (workspace Demo.w0) /\
  (main default_limits Demo.child_binary Demo.w0).1 <> Raise KeyError /\
  (main default_limits Demo.child_binary Demo.w0).1 <> Ret tt.
Proof.
  assert (Hwf : wf_workspace (workspace Demo.w0)).
  { unfold Demo.w0, Demo.ws, workspace. solve_wf. }
  split; [exact Hwf|].
  apply (main_never_raises_keyerror default_limits Demo.child_binary
           Demo.w0 Hwf).
Defined.

(** X9. Output that fits the cap is persisted whole: when neither
    captured stream, the text [subprocess.run] decoded, is longer than
    [MAX_OUTPUT_KB * 1024] characters, the artifact holds both in
    full. For plain output (ASCII, no carriage return) the captured
    text is, byte for byte, what the child wrote. *)
Theorem short_output_kept_whole L c w path ext base r :
  locate (workspace w) = Some (path, ext) ->
  dict_get RUNNERS ext = Some base ->
  completes c (call_of L base path) r ->
  can_persist (workspace w) ->
  Z.of_nat (length (stdout r)) <= MAX_OUTPUT_KB L * 1024 ->
  Z.of_nat (length (stderr r)) <= MAX_OUTPUT_KB L * 1024 ->
  read_file (workspace (main L c w).2) RESULT_PATH
  = Some (lit "exit_code: " ++ str_of_int (returncode r) ++ nl
          ++ lit "--- stdout ---" ++ nl ++ stdout r ++ nl
          ++ (if truthy (stderr r)
              then lit "--- stderr ---" ++ nl ++ stderr r ++ nl else [])) /\
  (forall code raw_out raw_err,
      c (call_of L base path) = Exited code raw_out raw_err ->
      plain raw_out -> plain raw_err ->
      stdout r = raw_out /\ stderr r = raw_err).
Proof.
  intros Hl Hget Hc Hp Hout Herr. split.
  - rewrite (main_exited _ _ _ _ _ _ _ Hl Hget Hc Hp). cbn [snd workspace].
    rewrite read_with_artifact, !slice_to_whole by assumption. reflexivity.
  - intros code raw_out raw_err. apply completes_plain. exact Hc.
Qed.

Lemma short_output_kept_whole_witness :
  locate (workspace Demo.w0) = Some (lit "/workspace/a.sh", lit ".sh") /\
  can_persist (workspace Demo.w0) /\
  read_file
    (workspace (main (Limits 30 1) Demo.child_exit3 Demo.w0).2) RESULT_PATH
  = Some (lit "exit_code: " ++ str_of_int 3 ++ nl
          ++ lit "--- stdout ---" ++ nl ++ lit "hi" ++ nl
          ++ lit "--- stderr ---" ++ nl ++ lit "warn" ++ nl).
Proof.
  assert (Hl : locate (workspace Demo.w0)
               = Some (lit "/workspace/a.sh", lit ".sh"))
    by (vm_compute; reflexivity).
  assert (Hp : can_persist (workspace Demo.w0)) by (vm_compute; exact I).
  split; [exact Hl|]. split; [exact Hp|].
  apply (short_output_kept_whole (Limits 30 1) Demo.child_exit3 Demo.w0
           (lit "/workspace/a.sh") (lit ".sh") [lit "bash"]
           (Completed 3 (lit "hi") (lit "warn"))
           Hl eq_refl ltac:(solve_completes) Hp).
  - simpl. lia.
  - simpl. lia.
Defined.

(** X10. A negative [MAX_OUTPUT_KB], which the environment can supply, does
    not cap anything: the slice then drops the last
    [-MAX_OUTPUT_KB * 1024] characters of each stream and keeps all
    that comes before, however long; a stream no longer than that is
    persisted empty. *)
Theorem negative_cap_drops_tail L c w path ext base r :
  locate (workspace w) = Some (path, ext) ->
  dict_get RUNNERS ext = Some base ->
  completes c (call_of L base path) r ->
  can_persist (workspace w) ->
  MAX_OUTPUT_KB L < 0 ->
  let n := Z.to_nat (- (MAX_OUTPUT_KB L * 1024)) in
  let out := firstn (length (stdout r) - n) (stdout r) in
  let err := firstn (length (stderr r) - n) (stderr r) in
  read_file (workspace (main L c w).2) RESULT_PATH
    = Some (artifact_text (returncode r) out err) /\
  length out = (length (stdout r) - n)%nat /\
  ((length (stdout r) <= n)%nat -> out = []).
Proof.
  intros Hl Hget Hc Hp Hneg n out err.
  rewrite (main_exited _ _ _ _ _ _ _ Hl Hget Hc Hp). cbn [snd workspace].
  rewrite read_with_artifact, !slice_to_negative by lia.
  split; [reflexivity|]. unfold out. split.
  - rewrite length_take. lia.
  - intros Hle. replace (length (stdout r) - n)%nat with 0%nat by lia.
    reflexivity.
Qed.

Lemma negative_cap_drops_tail_witness :
  locate (workspace Demo.w_single) = Some (lit "/workspace/a.py", lit ".py") /\
  can_persist (workspace Demo.w_single) /\
  MAX_OUTPUT_KB (Limits 30 (-1)) < 0 /\
  read_file
    (workspace (main (Limits 30 (-1)) Demo.child_accents Demo.w_single).2)
    RESULT_PATH
  = Some (artifact_text 0 [233%N] []).
Proof.
  assert (Hl : locate (workspace Demo.w_single)
               = Some (lit "/workspace/a.py", lit ".py"))
    by (vm_compute; reflexivity).
  assert (Hp : can_persist (workspace Demo.w_single)) by (vm_compute; exact I).
  assert (Hneg : MAX_OUTPUT_KB (Limits 30 (-1)) < 0) by (simpl; lia).
  split; [exact Hl|]. split; [exact Hp|]. split; [exact Hneg|].
  apply (negative_cap_drops_tail (Limits 30 (-1)) Demo.child_accents
           Demo.w_single (lit "/workspace/a.py") (lit ".py") [lit "python3"]
           (Completed 0 (repeat 233%N 1025) []) Hl eq_refl ltac:(solve_completes) Hp Hneg).
Defined.

(** X11. With [MAX_OUTPUT_KB] set to 0 nothing of the output survives:
    whatever the child wrote, the artifact is the exit code line and
    an empty stdout block, and nothing is echoed on the error
    channel. *)
Theorem zero_cap_drops_everything L c w path ext base r :
  locate (workspace w) = Some (path, ext) ->
  dict_get RUNNERS ext = Some base ->
  completes c (call_of L base path) r ->
  can_persist (workspace w) ->
  MAX_OUTPUT_KB L = 0 ->
  read_file (workspace (main L c w).2) RESULT_PATH
    = Some (lit "exit_code: " ++ str_of_int (returncode r) ++ nl
            ++ lit "--- stdout ---" ++ nl ++ nl) /\
  sys_stderr (main L c w).2 = sys_stderr w.
Proof.
  intros Hl Hget Hc Hp Hzero.
  rewrite (main_exited _ _ _ _ _ _ _ Hl Hget Hc Hp).
  cbn [snd workspace sys_stderr].
  rewrite read_with_artifact, Hzero. split.
  - reflexivity.
  - unfold echo. simpl. apply app_nil_r.
Qed.

Lemma zero_cap_drops_everything_witness :
  locate (workspace Demo.w0) = Some (lit "/workspace/a.sh", lit ".sh") /\
  can_persist (workspace Demo.w0) /\
  read_file
    (workspace (main (Limits 30 0) Demo.child_exit3 Demo.w0).2) RESULT_PATH
    = Some (lit "exit_code: " ++ str_of_int 3 ++ nl
            ++ lit "--- stdout ---" ++ nl ++ nl) /\
  sys_stderr (main (Limits 30 0) Demo.child_exit3 Demo.w0).2
    = sys_stderr Demo.w0.
Proof.
  assert (Hl : locate (workspace Demo.w0)
               = Some (lit "/workspace/a.sh", lit ".sh"))
    by (vm_compute; reflexivity).
  assert (Hp : can_persist (workspace Demo.w0)) by (vm_compute; exact I).
  split; [exact Hl|]. split; [exact Hp|].
  apply (zero_cap_drops_everything (Limits 30 0) Demo.child_exit3 Demo.w0
           (lit "/workspace/a.sh") (lit ".sh") [lit "bash"]
           (Completed 3 (lit "hi") (lit "warn")) Hl eq_refl ltac:(solve_completes) Hp eq_refl).
Defined.

(** X12. The exit status of a completed run is the child's return code
    modulo 256: it equals the return code exactly when that is a byte.
    A child killed by signal [n], whose return code is [-n], is
    reported as [256 - n], while the artifact records [-n]. *)
Theorem exit_status_is_low_byte L c w path ext base r :
  locate (workspace w) = Some (path, ext) ->
  dict_get RUNNERS ext = Some base ->
  completes c (call_of L base path) r ->
  can_persist (workspace w) ->
  exit_status (main L c w).1 = returncode r mod 256 /\
  (exit_status (main L c w).1 = returncode r <-> 0 <= returncode r < 256) /\
  (forall n, 0 < n < 256 -> returncode r = - n ->
             exit_status (main L c w).1 = 256 - n) /\
  exists rest,
    read_file (workspace (main L c w).2) RESULT_PATH
      = Some (lit "exit_code: " ++ str_of_int (returncode r) ++ nl ++ rest).
Proof.
  intros Hl Hget Hc Hp.
  rewrite (main_exited _ _ _ _ _ _ _ Hl Hget Hc Hp).
  cbn [fst snd workspace exit_status]. split; [reflexivity|]. split; [|split].
  - split.
    + intros Heq. rewrite <- Heq. apply Z.mod_pos_bound. lia.
    + intros Hk. apply Z.mod_small. exact Hk.
  - intros n Hn ->.
    replace (- n) with ((256 - n) + (-1) * 256) by lia.
    rewrite Z.mod_add by lia. apply Z.mod_small. lia.
  - rewrite read_with_artifact. unfold artifact_text. eexists. reflexivity.
Qed.

Lemma exit_status_is_low_byte_witness :
  locate (workspace Demo.w0) = Some (lit "/workspace/a.sh", lit ".sh") /\
  can_persist (workspace Demo.w0) /\
  exit_status (main default_limits Demo.child_killed Demo.w0).1 = 256 - 9.
Proof.
  assert (Hl : locate (workspace Demo.w0)
               = Some (lit "/workspace/a.sh", lit ".sh"))
    by (vm_compute; reflexivity).
  assert (Hp : can_persist (workspace Demo.w0)) by (vm_compute; exact I).
  split; [exact Hl|]. split; [exact Hp|].
  destruct (exit_status_is_low_byte default_limits Demo.child_killed Demo.w0
              (lit "/workspace/a.sh") (lit ".sh") [lit "bash"]
              (Completed (-9) [] []) Hl eq_refl ltac:(solve_completes) Hp)
    as (_ & _ & Hsig & _).
  apply (Hsig 9); [lia|reflexivity].
Defined.

(** X13. A timeout leaves the artifact of an earlier run in place: after
    a run that completed and a second one that timed out, the script
    exits with 124 and the artifact still tells the first result. *)
Theorem timeout_keeps_stale_artifact L c1 c2 w path ext base r :
  wf_workspace (workspace w) ->
  can_persist (workspace w) ->
  locate (workspace w) = Some (path, ext) ->
  dict_get RUNNERS ext = Some base ->
  completes c1 (call_of L base path) r ->
  c2 (call_of L base path) = TimedOut ->
  let after_first := (main L c1 w).2 in
  (main L c2 after_first).1 = SysExit 124 /\
  read_file (workspace (main L c2 after_first).2) RESULT_PATH
    = Some (artifact_text (returncode r)
              (slice_to (stdout r) (MAX_OUTPUT_KB L * 1024))
              (slice_to (stderr r) (MAX_OUTPUT_KB L * 1024))).
Proof.
  intros Hwf Hp Hl Hget Hc1 Hc2 after_first. unfold after_first.
  rewrite (main_exited _ _ _ _ _ _ _ Hl Hget Hc1 Hp). cbn [snd].
  rewrite (main_timed_out L c2 _ path ext base).
  - cbn [fst snd workspace]. split; [reflexivity|]. apply read_with_artifact.
  - cbn [workspace]. rewrite (locate_with_artifact _ _ Hwf Hp). exact Hl.
  - exact Hget.
  - exact Hc2.
Qed.

Lemma timeout_keeps_stale_artifact_witness :
  wf_workspace (workspace Demo.w0) /\
  can_persist (workspace Demo.w0) /\
  locate (workspace Demo.w0) = Some (lit "/workspace/a.sh", lit ".sh") /\
  (main default_limits Demo.child_slow
     (main default_limits Demo.child_exit3 Demo.w0).2).1 = SysExit 124 /\
  read_file
    (workspace
       (main default_limits Demo.child_slow
          (main default_limits Demo.child_exit3 Demo.w0).2).2)
    RESULT_PATH
  = Some (artifact_text 3
            (slice_to (lit "hi") (MAX_OUTPUT_KB default_limits * 1024))
            (slice_to (lit "warn") (MAX_OUTPUT_KB default_limits * 1024))).
Proof.
  assert (Hwf : wf_workspace (workspace Demo.w0)).
  { unfold Demo.w0, Demo.ws, workspace. solve_wf. }
  assert (Hl : locate (workspace Demo.w0)
               = Some (lit "/workspace/a.sh", lit ".sh"))
    by (vm_compute; reflexivity).
  assert (Hp : can_persist (workspace Demo.w0)) by (vm_compute; exact I).
  split; [exact Hwf|]. split; [exact Hp|]. split; [exact Hl|].
  apply (timeout_keeps_stale_artifact default_limits Demo.child_exit3
           Demo.child_slow Demo.w0 (lit "/workspace/a.sh") (lit ".sh")
           [lit "bash"] (Completed 3 (lit "hi") (lit "warn"))
           Hwf Hp Hl eq_refl ltac:(solve_completes) eq_refl).
Defined.

(** X15. With nothing runnable in the workspace the script exits with
    status 1 without starting any process or touching the workspace,
    and says so on the error channel. *)
Theorem nothing_runnable_exits_1 L c w :
  wf_workspace (workspace w) ->
  (forall name, ~ candidate (workspace w) name) ->
  let w' := (main L c w).2 in
  (main L c w).1 = SysExit 1 /\
  exit_status (main L c w).1 = 1 /\
  workspace w' = workspace w /\
  spawned w' = spawned w /\
  sys_stderr w' =
    sys_stderr w ++ lit "No runnable code found in /workspace" ++ nl.
Proof.
  intros Hwf Hnone w'. unfold w'.
  rewrite (main_not_found L c w); [repeat split; reflexivity|].
  apply locate_none; assumption.
Qed.

Lemma nothing_runnable_exits_1_witness :
  wf_workspace (workspace Demo.w_idle) /\
  (forall name, ~ candidate (workspace Demo.w_idle) name) /\
  (main default_limits Demo.child_exit3 Demo.w_idle).1 = SysExit 1 /\
  spawned (main default_limits Demo.child_exit3 Demo.w_idle).2 = [] /\
  workspace (main default_limits Demo.child_exit3 Demo.w_idle).2
    = workspace Demo.w_idle.
Proof.
  assert (Hwf : wf_workspace (workspace Demo.w_idle)).
  { unfold Demo.w_idle, Demo.ws_idle, workspace. solve_wf. }
  assert (Hnone : forall name, ~ candidate (workspace Demo.w_idle) name).
  { apply (locate_none _ Hwf). vm_compute. reflexivity. }
  split; [exact Hwf|]. split; [exact Hnone|].
  destruct (nothing_runnable_exits_1 default_limits Demo.child_exit3
              Demo.w_idle Hwf Hnone) as (H1 & _ & H3 & H4 & _).
  split; [exact H1|]. split; [exact H4|exact H3].
Defined.

(** X16. The return code can be read back from the artifact: two completed
    runs that leave the same artifact text had the same return code,
    whatever the children printed. *)
Theorem exit_code_recoverable L c1 c2 w path ext base r1 r2 :
  locate (workspace w) = Some (path, ext) ->
  dict_get RUNNERS ext = Some base ->
  can_persist (workspace w) ->
  completes c1 (call_of L base path) r1 ->
  completes c2 (call_of L base path) r2 ->
  read_file (workspace (main L c1 w).2) RESULT_PATH
    = read_file (workspace (main L c2 w).2) RESULT_PATH ->
  returncode r1 = returncode r2.
Proof.
  intros Hl Hget Hp Hc1 Hc2.
  rewrite (main_exited _ _ _ _ _ _ _ Hl Hget Hc1 Hp).
  rewrite (main_exited _ _ _ _ _ _ _ Hl Hget Hc2 Hp).
  cbn [snd workspace]. rewrite !read_with_artifact. intros H.
  apply (inj Some) in H. eapply artifact_text_code. exact H.
Qed.

Lemma exit_code_recoverable_witness :
  locate (workspace Demo.w_single) = Some (lit "/workspace/a.py", lit ".py") /\
  can_persist (workspace Demo.w_single) /\
  read_file
    (workspace (main default_limits Demo.child_fake_stderr Demo.w_single).2)
    RESULT_PATH
  = read_file
      (workspace (main default_limits Demo.child_real_stderr Demo.w_single).2)
      RESULT_PATH /\
  returncode
    (Completed 0 (lit "a" ++ nl ++ lit "--- stderr ---" ++ nl ++ lit "b") [])
  = returncode (Completed 0 (lit "a") (lit "b")).
Proof.
  assert (Hl : locate (workspace Demo.w_single)
               = Some (lit "/workspace/a.py", lit ".py"))
    by (vm_compute; reflexivity).
  assert (Hp : can_persist (workspace Demo.w_single)) by (vm_compute; exact I).
  assert (Hsame :
    read_file
      (workspace (main default_limits Demo.child_fake_stderr Demo.w_single).2)
      RESULT_PATH
    = read_file
        (workspace (main default_limits Demo.child_real_stderr Demo.w_single).2)
        RESULT_PATH) by (vm_compute; reflexivity).
  split; [exact Hl|]. split; [exact Hp|]. split; [exact Hsame|].
  apply (exit_code_recoverable default_limits Demo.child_fake_stderr
           Demo.child_real_stderr Demo.w_single (lit "/workspace/a.py")
           (lit ".py") [lit "python3"]
           (Completed 0
              (lit "a" ++ nl ++ lit "--- stderr ---" ++ nl ++ lit "b") [])
           (Completed 0 (lit "a") (lit "b"))
           Hl eq_refl Hp ltac:(solve_completes) ltac:(solve_completes) Hsame).
Defined.

(** X17. The artifact does not keep the two streams apart: a child that
    prints the stderr header on its stdout leaves the same artifact
    as one that really wrote to stderr. *)
Theorem artifact_does_not_separate_streams L c1 c2 w path ext base code a b :
  locate (workspace w) = Some (path, ext) ->
  dict_get RUNNERS ext = Some base ->
  can_persist (workspace w) ->
  b <> [] ->
  Z.of_nat (length (a ++ nl ++ lit "--- stderr ---" ++ nl ++ b))
    <= MAX_OUTPUT_KB L * 1024 ->
  completes c1 (call_of L base path)
    (Completed code (a ++ nl ++ lit "--- stderr ---" ++ nl ++ b) []) ->
  completes c2 (call_of L base path) (Completed code a b) ->
  read_file (workspace (main L c1 w).2) RESULT_PATH
    = read_file (workspace (main L c2 w).2) RESULT_PATH.
Proof.
  intros Hl Hget Hp Hb Hlen Hc1 Hc2.
  rewrite (main_exited _ _ _ _ _ _ _ Hl Hget Hc1 Hp).
  rewrite (main_exited _ _ _ _ _ _ _ Hl Hget Hc2 Hp).
  cbn [snd workspace returncode stdout stderr].
  rewrite !read_with_artifact. f_equal.
  rewrite (slice_to_whole (a ++ _)) by exact Hlen.
  rewrite !length_app in Hlen.
  rewrite (slice_to_whole a), (slice_to_whole b), slice_to_nil by lia.
  unfold artifact_text. destruct b as [|x b]; [contradiction|].
  cbn [truthy]. rewrite <- !app_assoc, app_nil_r. reflexivity.
Qed.

Lemma artifact_does_not_separate_streams_witness :
  locate (workspace Demo.w_single) = Some (lit "/workspace/a.py", lit ".py") /\
  can_persist (workspace Demo.w_single) /\
  read_file
    (workspace (main default_limits Demo.child_fake_stderr Demo.w_single).2)
    RESULT_PATH
  = read_file
      (workspace (main default_limits Demo.child_real_stderr Demo.w_single).2)
      RESULT_PATH.
Proof.
  assert (Hl : locate (workspace Demo.w_single)
               = Some (lit "/workspace/a.py", lit ".py"))
    by (vm_compute; reflexivity).
  assert (Hp : can_persist (workspace Demo.w_single)) by (vm_compute; exact I).
  split; [exact Hl|]. split; [exact Hp|].
  apply (artifact_does_not_separate_streams default_limits
           Demo.child_fake_stderr Demo.child_real_stderr Demo.w_single
           (lit "/workspace/a.py") (lit ".py") [lit "python3"] 0
           (lit "a") (lit "b") Hl eq_refl Hp).
  - discriminate.
  - vm_compute. discriminate.
  - solve_completes.
  - solve_completes.
Defined.

(** X18. Truncation keeps the head of the captured text. With a cap
    that is not negative, each block of the artifact holds the first
    [MAX_OUTPUT_KB * 1024] characters of the decoded stream, exactly
    that many when the stream is longer, and each stream is cut on its
    own. For plain output (ASCII, no carriage return) the stdout block
    is, byte for byte, the first [MAX_OUTPUT_KB * 1024] bytes the
    child wrote. *)
Theorem truncation_keeps_first_characters L c w path ext base r :
  locate (workspace w) = Some (path, ext) ->
  dict_get RUNNERS ext = Some base ->
  completes c (call_of L base path) r ->
  can_persist (workspace w) ->
  0 <= MAX_OUTPUT_KB L ->
  let cap := Z.to_nat (MAX_OUTPUT_KB L * 1024) in
  let out := firstn cap (stdout r) in
  let err := firstn cap (stderr r) in
  read_file (workspace (main L c w).2) RESULT_PATH
    = Some (artifact_text (returncode r) out err) /\
  (length out <= cap)%nat /\
  (length err <= cap)%nat /\
  ((cap < length (stdout r))%nat -> length out = cap) /\
  ((cap < length (stderr r))%nat -> length err = cap) /\
  (forall code raw_out raw_err,
      c (call_of L base path) = Exited code raw_out raw_err ->
      plain raw_out -> plain raw_err ->
      utf8 out = firstn cap raw_out /\ utf8 err = firstn cap raw_err).
Proof.
  intros Hl Hget Hc Hp Hcap cap out err.
  rewrite (main_exited _ _ _ _ _ _ _ Hl Hget Hc Hp). cbn [snd workspace].
  rewrite read_with_artifact, !slice_to_nonneg by lia.
  split; [reflexivity|]. unfold out, err.
  split; [rewrite length_take; lia|].
  split; [rewrite length_take; lia|].
  split; [intros Hlt; rewrite length_take; lia|].
  split; [intros Hlt; rewrite length_take; lia|].
  intros code raw_out raw_err Hc' Hpo Hpe.
  destruct (completes_plain _ _ _ _ _ _ Hc Hc' Hpo Hpe) as [-> ->].
  split; apply utf8_ascii, Forall_take.
  - eapply Forall_impl; [exact Hpo|]. intros b [Hb _]. exact Hb.
  - eapply Forall_impl; [exact Hpe|]. intros b [Hb _]. exact Hb.
Qed.

Lemma truncation_keeps_first_characters_witness :
  locate (workspace Demo.w_single) = Some (lit "/workspace/a.py", lit ".py") /\
  can_persist (workspace Demo.w_single) /\
  0 <= MAX_OUTPUT_KB (Limits 30 1) /\
  length (repeat 97%N 1025) = 1025%nat /\
  read_file
    (workspace (main (Limits 30 1) Demo.child_long Demo.w_single).2)
    RESULT_PATH
    = Some (artifact_text 0 (firstn 1024 (repeat 97%N 1025)) (firstn 1024 [])) /\
  length (firstn 1024 (repeat 97%N 1025)) = 1024%nat.
Proof.
  assert (Hl : locate (workspace Demo.w_single)
               = Some (lit "/workspace/a.py", lit ".py"))
    by (vm_compute; reflexivity).
  assert (Hp : can_persist (workspace Demo.w_single)) by (vm_compute; exact I).
  assert (Hcap : 0 <= MAX_OUTPUT_KB (Limits 30 1)) by (simpl; lia).
  split; [exact Hl|]. split; [exact Hp|]. split; [exact Hcap|].
  split; [vm_compute; reflexivity|].
  destruct (truncation_keeps_first_characters (Limits 30 1) Demo.child_long
              Demo.w_single (lit "/workspace/a.py") (lit ".py")
              [lit "python3"] (Completed 0 (repeat 97%N 1025) [])
              Hl eq_refl ltac:(solve_completes) Hp Hcap)
    as (Hart & _ & _ & Hlen & _).
  split; [exact Hart|]. apply Hlen. vm_compute. lia.
Defined.

End ExecutorProperties.
